(** * Epub2Txt: the EPUB-to-text conversion service

    A shallow embedding of [convertEpubToText] and [extractTextFromHtml]
    (services/epubService.ts) together with the properties of the
    conversion pipeline.

    JavaScript strings are sequences of UTF-16 code units and are modelled
    as [list N]; [length] is then the [.length] of the source.  The archive
    reader (JSZip) and the markup parser (DOMParser) are external: the
    archive is a finite map from entry paths to entry texts, the parsers are
    parameters that return a node tree.  The manifest object
    [Record<string, EpubManifestItem>] is a finite map over its own string
    keys; what a read of that object inherits from [Object.prototype] is
    written out where the spine is filtered.  [toLowerCase] is modelled on
    the ASCII letters.  The calls of [onProgress], the console lines and the
    exceptions are kept in a small monad that records the events in the
    order they happen. *)

From Stdlib Require Import NArith ZArith String Ascii List Bool Lia.
From stdpp Require Import base option list gmap.

Local Open Scope N_scope.
Set Warnings "-register-all".

(** ** JavaScript strings *)

Module JS.

(** An ASCII literal of the source as code units. *)
Definition lit (s : string) : list N :=
  List.map N_of_ascii (list_ascii_of_string s).

Definition LF : N := 10.

(** WhiteSpace and LineTerminator code points, the characters removed by
    [String.prototype.trim]. *)
Definition isWhiteSpace (c : N) : bool :=
  match c with
  | 9 | 10 | 11 | 12 | 13 | 32 | 160 | 5760
  | 8232 | 8233 | 8239 | 8287 | 12288 | 65279 => true
  | _ => (8192 <=? c) && (c <=? 8202)
  end.

Definition allWhite (w : list N) : Prop :=
  Forall (fun c => isWhiteSpace c = true) w.

(** A line without leading or trailing white space. *)
Definition isTrimmed (line : list N) : Prop :=
  (∀ c r, line = c :: r → isWhiteSpace c = false) ∧
  (∀ r c, line = r ++ [c] → isWhiteSpace c = false).

Fixpoint trimStart (s : list N) : list N :=
  match s with
  | [] => []
  | c :: r => if isWhiteSpace c then trimStart r else s
  end.

Definition trimEnd (s : list N) : list N := rev (trimStart (rev s)).

Definition trim (s : list N) : list N := trimEnd (trimStart s).

Fixpoint startsWith (s pat : list N) : bool :=
  match pat, s with
  | [], _ => true
  | _ :: _, [] => false
  | p :: pr, c :: sr => (c =? p) && startsWith sr pr
  end.

(** [s.includes(pat)]: [pat] occurs in [s] as a contiguous substring. *)
Fixpoint includes (s pat : list N) : bool :=
  startsWith s pat ||
  match s with
  | [] => false
  | _ :: r => includes r pat
  end.

(** [s.split('\n')] *)
Fixpoint splitLines (s : list N) : list (list N) :=
  match s with
  | [] => [[]]
  | c :: r =>
      if c =? LF then [] :: splitLines r
      else match splitLines r with
           | l :: ls => (c :: l) :: ls
           | [] => [[c]]
           end
  end.

(** [ls.join('\n')] *)
Fixpoint joinLines (ls : list (list N)) : list N :=
  match ls with
  | [] => []
  | [l] => l
  | l :: rest => l ++ LF :: joinLines rest
  end.

(** What a pending run of [run] newlines becomes under
    [replace(/\n{3,}/g, '\n\n')]: the pattern is greedy, so a maximal run
    of three or more is replaced as a whole, shorter runs are kept. *)
Definition emitRun (run : nat) : list N :=
  if (3 <=? run)%nat then [LF; LF] else repeat LF run.

Fixpoint collapseFrom (run : nat) (s : list N) : list N :=
  match s with
  | [] => emitRun run
  | c :: r =>
      if c =? LF then collapseFrom (S run) r
      else emitRun run ++ c :: collapseFrom 0 r
  end.

(** [s.replace(/\n{3,}/g, '\n\n')] *)
Definition collapseNewlines (s : list N) : list N := collapseFrom 0 s.

(** [toLowerCase] on the ASCII range (the letters A-Z); the code units
    outside it are left as they are. *)
Definition lowerUnit (c : N) : N :=
  if (65 <=? c) && (c <=? 90) then c + 32 else c.

Definition toLowerCase (s : list N) : list N := List.map lowerUnit s.

Fixpoint lastIndexOfFrom (c : N) (i acc : Z) (s : list N) : Z :=
  match s with
  | [] => acc
  | x :: r => lastIndexOfFrom c (i + 1) (if x =? c then i else acc) r
  end.

(** [s.lastIndexOf(c)], -1 when [c] does not occur. *)
Definition lastIndexOf (s : list N) (c : N) : Z := lastIndexOfFrom c 0 (-1) s.

(** [s.substring(0, e)] *)
Definition substring0 (s : list N) (e : Z) : list N := take (Z.to_nat e) s.

(** [ls.join(sep)] *)
Fixpoint joinWith (sep : list N) (ls : list (list N)) : list N :=
  match ls with
  | [] => []
  | [l] => l
  | l :: rest => l ++ sep ++ joinWith sep rest
  end.

(** A run of three newlines, what [/\n{3,}/] matches at least. *)
Definition tripleNewline : list N := [LF; LF; LF].

(** [s.endsWith(suffix)] *)
Definition endsWith (s suffix : list N) : bool :=
  (length suffix <=? length s)%nat
  && bool_decide (drop (length s - length suffix) s = suffix).

(** [s.replace(pat, rep)] for a string pattern and a replacement without
    [$]: the first occurrence is replaced, the others stay. *)
Fixpoint replaceFirst (s pat rep : list N) : list N :=
  if startsWith s pat then rep ++ drop (length pat) s
  else match s with
       | [] => []
       | c :: r => c :: replaceFirst r pat rep
       end.

(** *** decodeURIComponent *)

Definition hexValue (c : N) : option N :=
  if (48 <=? c) && (c <=? 57) then Some (c - 48)
  else if (65 <=? c) && (c <=? 70) then Some (c - 55)
  else if (97 <=? c) && (c <=? 102) then Some (c - 87)
  else None.

(** A string read as a sequence of plain code units and of octets written
    as percent escapes. *)
Inductive UriItem :=
| Plain (c : N)
| Octet (b : N).

(** First pass: every [%] must be followed by two hexadecimal digits;
    [None] is the URIError of the source. *)
Fixpoint uriItems (s : list N) : option (list UriItem) :=
  match s with
  | [] => Some []
  | c :: r =>
      if c =? 37 then
        match r with
        | h1 :: h2 :: r' =>
            match hexValue h1, hexValue h2, uriItems r' with
            | Some a, Some b, Some items => Some (Octet (16 * a + b) :: items)
            | _, _, _ => None
            end
        | _ => None
        end
      else
        match uriItems r with
        | Some items => Some (Plain c :: items)
        | None => None
        end
  end.

(** What follows a percent sign that is not an escape: fewer than two
    characters, or a character that is no hexadecimal digit. *)
Definition badEscape (rest : list N) : Prop :=
  match rest with
  | h1 :: h2 :: _ => hexValue h1 = None ∨ hexValue h2 = None
  | _ => True
  end.

Definition isContinuation (b : N) : bool := (128 <=? b) && (b <=? 191).

(** UTF-16 encoding of a code point. *)
Definition utf16 (v : N) : list N :=
  if v <? 65536 then [v]
  else [55296 + (v - 65536) / 1024; 56320 + (v - 65536) mod 1024].

(** Second pass: the octets must form well-formed UTF-8 (shortest form,
    no surrogates, at most U+10FFFF); each sequence yields the UTF-16 code
    units of its code point. *)
Fixpoint utf8Items (items : list UriItem) : option (list N) :=
  match items with
  | [] => Some []
  | Plain c :: rest =>
      match utf8Items rest with Some t => Some (c :: t) | None => None end
  | Octet b0 :: rest =>
      if b0 <? 128 then
        match utf8Items rest with Some t => Some (b0 :: t) | None => None end
      else if (194 <=? b0) && (b0 <=? 223) then
        match rest with
        | Octet b1 :: rest1 =>
            if isContinuation b1 then
              match utf8Items rest1 with
              | Some t => Some ((b0 - 192) * 64 + (b1 - 128) :: t)
              | None => None
              end
            else None
        | _ => None
        end
      else if (224 <=? b0) && (b0 <=? 239) then
        match rest with
        | Octet b1 :: Octet b2 :: rest2 =>
            let v := (b0 - 224) * 4096 + (b1 - 128) * 64 + (b2 - 128) in
            if isContinuation b1 && isContinuation b2
               && (2048 <=? v) && negb ((55296 <=? v) && (v <=? 57343)) then
              match utf8Items rest2 with
              | Some t => Some (v :: t)
              | None => None
              end
            else None
        | _ => None
        end
      else if (240 <=? b0) && (b0 <=? 244) then
        match rest with
        | Octet b1 :: Octet b2 :: Octet b3 :: rest3 =>
            let v := (b0 - 240) * 262144 + (b1 - 128) * 4096
                     + (b2 - 128) * 64 + (b3 - 128) in
            if isContinuation b1 && isContinuation b2 && isContinuation b3
               && (65536 <=? v) && (v <=? 1114111) then
              match utf8Items rest3 with
              | Some t => Some (utf16 v ++ t)
              | None => None
              end
            else None
        | _ => None
        end
      else None
  end.

(** [decodeURIComponent(s)]; [None] when it throws URIError. *)
Definition decodeURIComponent (s : list N) : option (list N) :=
  match uriItems s with
  | Some items => utf8Items items
  | None => None
  end.

End JS.

(** ** The node tree of DOMParser *)

Module Dom.

(** [localName] is what a type selector is compared with; [tagName] is the
    DOM property read by the converter (the upper-cased name for the HTML
    elements of an HTML document). *)
Inductive Node :=
| TextNode (data : list N)
| ElementNode (localName tagName : list N)
              (attributes : list (list N * list N))
              (childNodes : list Node)
| CDataNode (data : list N)   (* a CDATA section of an XML document *)
| OtherNode.                  (* comments, processing instructions *)

Definition isNamed (name : list N) (n : Node) : bool :=
  match n with
  | ElementNode l _ _ _ => bool_decide (l = name)
  | _ => false
  end.

Fixpoint assoc (name : list N) (attrs : list (list N * list N)) : option (list N) :=
  match attrs with
  | [] => None
  | (k, v) :: rest => if bool_decide (k = name) then Some v else assoc name rest
  end.

(** [node.getAttribute(name)], [None] for null. *)
Definition getAttribute (n : Node) (name : list N) : option (list N) :=
  match n with
  | ElementNode _ _ attrs _ => assoc name attrs
  | _ => None
  end.

(** [node.textContent] of an element or a text node. *)
Fixpoint textContent (n : Node) : list N :=
  match n with
  | TextNode d | CDataNode d => d
  | ElementNode _ _ _ cs => concat (List.map textContent cs)
  | OtherNode => []
  end.

(** The elements below (and including) a node in tree order, each with the
    local name of its parent element. *)
Fixpoint elements (parent : option (list N)) (n : Node)
  : list (option (list N) * Node) :=
  match n with
  | ElementNode l _ _ cs =>
      (parent, n) :: concat (List.map (elements (Some l)) cs)
  | _ => []
  end.

(** [doc.querySelectorAll(name)] *)
Definition selectAll (name : list N) (doc : Node) : list Node :=
  List.map snd (List.filter (fun pn => isNamed name (snd pn)) (elements None doc)).

(** [doc.querySelectorAll(parent > name)] *)
Definition selectChildren (parent name : list N) (doc : Node) : list Node :=
  List.map snd
    (List.filter (fun pn => bool_decide (fst pn = Some parent) && isNamed name (snd pn))
                 (elements None doc)).

(** [querySelector]: the first match, [None] for null. *)
Definition selectFirst (name : list N) (doc : Node) : option Node :=
  head (selectAll name doc).

Definition selectFirstChild (parent name : list N) (doc : Node) : option Node :=
  head (selectChildren parent name doc).

End Dom.

Import Dom.

(** ** extractTextFromHtml *)

Module Html.

Definition removedNames : list (list N) :=
  List.map JS.lit ["script"; "style"; "link"; "meta"; "title"; "svg"]%string.

Definition isRemoved (n : Node) : bool :=
  match n with
  | ElementNode l _ _ _ => bool_decide (l ∈ removedNames)
  | _ => false
  end.

(** [doc.querySelectorAll('script, style, link, meta, title, svg')] followed
    by [node.remove()] on every match: the matching elements leave the tree
    with everything below them.  The function is applied to the document
    element, which for a text/html parse is [html] and is not matched. *)
Fixpoint removeNonContent (n : Node) : Node :=
  match n with
  | ElementNode l t a cs =>
      ElementNode l t a
        (List.filter (fun c => negb (isRemoved c)) (List.map removeNonContent cs))
  | _ => n
  end.


Definition isBody (n : Node) : bool :=
  isNamed (JS.lit "body") n || isNamed (JS.lit "frameset") n.

(** [doc.body || doc.documentElement] *)
Definition bodyOf (doc : Node) : Node :=
  match doc with
  | ElementNode _ _ _ cs =>
      match List.find isBody cs with
      | Some b => b
      | None => doc
      end
  | _ => doc
  end.

Definition blockTags : list (list N) :=
  List.map JS.lit
    ["p"; "div"; "h1"; "h2"; "h3"; "h4"; "h5"; "h6"; "li"; "br"; "hr"; "tr"]%string.

(** The bullet prefix, U+2022 and a space. *)
Definition bullet : list N := [8226; 32].

(** The prefix and suffix chosen for a lower-cased tag name. *)
Definition affixes (tagName : list N) : list N * list N :=
  if bool_decide (tagName ∈ blockTags) then
    if bool_decide (tagName = JS.lit "p") then ([], [JS.LF; JS.LF])
    else if bool_decide (tagName = JS.lit "br") then ([], [JS.LF])
    else if bool_decide (tagName = JS.lit "li") then (bullet, [])
    else ([], [JS.LF])
  else ([], []).

Fixpoint walk (n : Node) : list N :=
  match n with
  | TextNode d => d
  | ElementNode _ t _ cs =>
      let '(prefix, suffix) := affixes (JS.toLowerCase t) in
      prefix ++ concat (List.map walk cs) ++ suffix
  | CDataNode _ | OtherNode => []
  end.

(** The three normalisation steps applied to the walked text. *)
Definition normalize (rawText : list N) : list N :=
  let collapsed := JS.collapseNewlines rawText in
  let trimmed := JS.joinLines (List.map JS.trim (JS.splitLines collapsed)) in
  JS.trim trimmed.




(** The converter on a parsed document. *)
Definition extractTextFromDoc (doc : Node) : list N :=
  normalize (walk (bodyOf (removeNonContent doc))).

End Html.

(** ** convertEpubToText *)

Module Epub.

Record EpubManifestItem := {
  id : list N;
  href : list N;
  mediaType : list N;
  properties : list N
}.

Record EpubSpineItem := { idref : list N }.

Record ProcessedBook := {
  filename : list N;
  title : list N;
  author : list N;
  content : list N;
  size : Z
}.

(** The uploaded file: its name and what [zip.loadAsync(file)] resolves to,
    the entries of the archive by path with their text ([None] when the
    file is not a readable archive). *)
Record File := {
  name : list N;
  loadAsync : option (gmap (list N) (list N))
}.

(** The facilities of the browser the service calls. *)
Record Host := {
  (** [new DOMParser().parseFromString(s, 'application/xml')], the document
      element; the parser does not throw, for text that is not well-formed
      it returns an error document. *)
  parseXml : list N → Node;
  (** [parseFromString(s, 'text/html')], the [html] element. *)
  parseHtml : list N → Node;
  (** [Math.round((i / totalItems) * 60)] in binary64 arithmetic. *)
  roundScaled : nat → nat → Z
}.

Inductive Message :=
| Unzipping
| ReadingMetadata
| ProcessingChapter (chapter total : nat)
| Finalizing.

(** What the conversion does to the outside, in the order it happens: the
    calls of [onProgress] and the lines written to the console. *)
Inductive Event :=
| OnProgress (percent : Z) (message : Message)
| LogSkipNav (href : list N)
| LogSkipHeuristic (href : list N)
| WarnMissing (decodedPath : list N).

(** The exceptions that reject the promise.  The first [Error] values are
    those thrown by the service itself, [URIError] comes from
    [decodeURIComponent], [TypeError] from reading a property of
    [undefined]. *)
Inductive Error :=
| ZipError
| MissingContainer
| NoRootfile
| RootfilePathMissing
| OpfMissing (fullPath : list N)
| URIError
| TypeError.

(** The error kinds of the design document. *)
Inductive ErrorKind := MalformedContainer | MalformedManifest | OtherFailure.

Definition errorKind (e : Error) : ErrorKind :=
  match e with
  | MissingContainer | NoRootfile | RootfilePathMissing => MalformedContainer
  | OpfMissing _ => MalformedManifest
  | ZipError | URIError | TypeError => OtherFailure
  end.

(** A computation that emits events and either throws or returns. *)
Definition M (A : Type) : Type := list Event * (Error + A).

#[global] Instance M_ret : MRet M := λ A a, ([], inr a).

#[global] Instance M_bind : MBind M := λ A B k m,
  match m with
  | (evs, inl e) => (evs, inl e)
  | (evs, inr a) => let '(evs', r) := k a in (evs ++ evs', r)
  end.

Definition throw {A} (e : Error) : M A := ([], inl e).

Definition emit (ev : Event) : M unit := ([ev], inr tt).

Definition fromOption {A} (e : Error) (o : option A) : M A :=
  match o with
  | Some a => mret a
  | None => throw e
  end.

(** Truthiness of a [string | null] value: null and the empty string are
    falsy. *)
Definition nonEmpty (o : option (list N)) : option (list N) :=
  match o with
  | Some (_ :: _) => o
  | _ => None
  end.

(** [o || d] *)
Definition orElse (o : option (list N)) (d : list N) : list N :=
  match nonEmpty o with
  | Some s => s
  | None => d
  end.

Definition addManifestNode (manifestItems : gmap (list N) EpubManifestItem)
    (node : Node) : gmap (list N) EpubManifestItem :=
  match nonEmpty (getAttribute node (JS.lit "id")),
        nonEmpty (getAttribute node (JS.lit "href")),
        nonEmpty (getAttribute node (JS.lit "media-type")) with
  | Some i, Some h, Some mt =>
      <[ i := {| id := i; href := h; mediaType := mt;
                 properties := orElse (getAttribute node (JS.lit "properties")) [] |} ]>
        manifestItems
  | _, _, _ => manifestItems
  end.

Definition parseManifest (opfDoc : Node) : gmap (list N) EpubManifestItem :=
  fold_left addManifestNode
    (selectChildren (JS.lit "manifest") (JS.lit "item") opfDoc) ∅.

(** The entry a manifest node yields: one that has an id, an href and a
    media type, none of them empty. *)
Definition manifestItemOf (node : Node) : option EpubManifestItem :=
  match nonEmpty (getAttribute node (JS.lit "id")),
        nonEmpty (getAttribute node (JS.lit "href")),
        nonEmpty (getAttribute node (JS.lit "media-type")) with
  | Some i, Some h, Some mt =>
      Some {| id := i; href := h; mediaType := mt;
              properties := orElse (getAttribute node (JS.lit "properties")) [] |}
  | _, _, _ => None
  end.

Definition spineNodes (opfDoc : Node) : list Node :=
  selectChildren (JS.lit "spine") (JS.lit "itemref") opfDoc.

Definition spineOfNode (node : Node) : EpubSpineItem :=
  {| idref := orElse (getAttribute node (JS.lit "idref")) [] |}.

(** The manifest object is created as [{}]: a read [manifestItems[key]]
    that finds no own property goes on to [Object.prototype].  These are
    the names that object holds; each of them reads as a function or an
    object, a truthy value that is no manifest item. *)
Definition objectPrototypeMembers : list (list N) :=
  List.map JS.lit
    [ "constructor"; "hasOwnProperty"; "isPrototypeOf"; "propertyIsEnumerable";
      "toLocaleString"; "toString"; "valueOf"; "__proto__";
      "__defineGetter__"; "__defineSetter__";
      "__lookupGetter__"; "__lookupSetter__" ]%string.

(** Whether the read [manifestItems[key]] finds a truthy value above the
    own properties.  The write [manifestItems[id] = item] stores an own
    property for every id but [__proto__]: that name is an accessor of
    [Object.prototype], and the write puts the item in place of the
    prototype of the manifest object.  The read of [__proto__] returns
    that item afterwards, as the lookup in the finite map does, and
    the four members of the item are read through it: [id], [href] and
    [mediaType] are non-empty strings, [properties] may be empty. *)
Definition inheritedTruthy (manifestItems : gmap (list N) EpubManifestItem)
    (key : list N) : bool :=
  bool_decide (key ∈ objectPrototypeMembers)
  || match manifestItems !! JS.lit "__proto__" with
     | Some proto =>
         bool_decide (key ∈ [JS.lit "id"; JS.lit "href"; JS.lit "mediaType"])
         || bool_decide (key = JS.lit "properties")
            && match properties proto with [] => false | _ :: _ => true end
     | None => false
     end.

(** [item.idref && manifestItems[item.idref]]: the identifier is not empty
    and the read finds an item of the manifest or an inherited value.  An
    entry kept for an inherited value has no item: the loop reads
    [undefined] for its [href]. *)
Definition retained (manifestItems : gmap (list N) EpubManifestItem)
    (item : EpubSpineItem) : bool :=
  match idref item with
  | [] => false
  | _ :: _ => bool_decide (is_Some (manifestItems !! idref item))
              || inheritedTruthy manifestItems (idref item)
  end.

Definition parseSpine (manifestItems : gmap (list N) EpubManifestItem)
    (opfDoc : Node) : list EpubSpineItem :=
  List.filter (retained manifestItems) (List.map spineOfNode (spineNodes opfDoc)).

Definition dashes : list N :=
  JS.lit "------------------------------------------------".

Definition separator : list N := [JS.LF; JS.LF] ++ dashes ++ [JS.LF; JS.LF].

(** Rule 1: [item.properties && item.properties.includes('nav')] *)
Definition skipNav (item : EpubManifestItem) : bool :=
  match properties item with
  | [] => false
  | _ :: _ => JS.includes (properties item) (JS.lit "nav")
  end.

(** Rule 2: the file name heuristic on the first three positions. *)
Definition skipByName (i : nat) (item : EpubManifestItem) : bool :=
  let lowerHref := JS.toLowerCase (href item) in
  let lowerId := JS.toLowerCase (id item) in
  let isEarly := (i <? 3)%nat in
  isEarly && (JS.includes lowerHref (JS.lit "toc")
              || JS.includes lowerHref (JS.lit "contents")
              || JS.includes lowerId (JS.lit "toc")).

Section Conversion.

Variable host : Host.

Definition extractTextFromHtml (html : list N) : list N :=
  Html.extractTextFromDoc (parseHtml host html).

Variable loadedZip : gmap (list N) (list N).
Variable manifestItems : gmap (list N) EpubManifestItem.
Variable opfDir : list N.
Variable totalItems : nat.

(** One turn of the loop over the spine, at index [i]. *)
Definition processItem (i : nat) (entry : EpubSpineItem) (fullText : list N)
  : M (list N) :=
  let progressPercent := (30 + roundScaled host i totalItems)%Z in
  emit (OnProgress progressPercent (ProcessingChapter (i + 1) totalItems)) ;;
  item ← fromOption TypeError (manifestItems !! idref entry);
  if skipNav item then
    emit (LogSkipNav (href item)) ;; mret fullText
  else if skipByName i item then
    emit (LogSkipHeuristic (href item)) ;; mret fullText
  else
    let fileZipPath := opfDir ++ href item in
    decodedPath ← fromOption URIError (JS.decodeURIComponent fileZipPath);
    match loadedZip !! decodedPath with
    | None => emit (WarnMissing decodedPath) ;; mret fullText
    | Some htmlContent =>
        let text := extractTextFromHtml htmlContent in
        if (0 <? length (JS.trim text))%nat
        then mret (fullText ++ text ++ separator)
        else mret fullText
    end.

(** The loop from index [i] on, over the entries that remain. *)
Fixpoint processSpine (i : nat) (entries : list EpubSpineItem)
    (fullText : list N) : M (list N) :=
  match entries with
  | [] => mret fullText
  | entry :: rest =>
      fullText' ← processItem i entry fullText;
      processSpine (S i) rest fullText'
  end.

End Conversion.

(** The directory of the OPF file:
    [fullPath.substring(0, fullPath.lastIndexOf('/') + 1)] *)
Definition opfDirOf (fullPath : list N) : list N :=
  JS.substring0 fullPath (JS.lastIndexOf fullPath 47 + 1).

(** 1. Find Container to locate OPF *)
Definition locateOpf (host : Host) (loadedZip : gmap (list N) (list N))
  : M (list N) :=
  containerXml ← fromOption MissingContainer
                    (loadedZip !! JS.lit "META-INF/container.xml");
  let containerDoc := parseXml host containerXml in
  rootfile ← fromOption NoRootfile (selectFirst (JS.lit "rootfile") containerDoc);
  fullPath ← fromOption RootfilePathMissing
                (nonEmpty (getAttribute rootfile (JS.lit "full-path")));
  mret fullPath.

(** What is read from the OPF document. *)
Record Opf := {
  opfTitle : list N;
  opfAuthor : list N;
  manifestItems : gmap (list N) EpubManifestItem;
  spine : list EpubSpineItem
}.

Definition readOpf (opfDoc : Node) : Opf :=
  let title :=
    orElse (option_map textContent
              (selectFirstChild (JS.lit "metadata") (JS.lit "title") opfDoc))
           (JS.lit "Untitled") in
  let author :=
    orElse (option_map textContent
              (selectFirstChild (JS.lit "metadata") (JS.lit "creator") opfDoc))
           (JS.lit "Unknown Author") in
  let manifestItems := parseManifest opfDoc in
  {| opfTitle := title;
     opfAuthor := author;
     manifestItems := manifestItems;
     spine := parseSpine manifestItems opfDoc |}.

(** 2. Parse OPF *)
Definition parseOpf (host : Host) (loadedZip : gmap (list N) (list N))
    (fullPath : list N) : M Opf :=
  emit (OnProgress 20 ReadingMetadata) ;;
  opfContent ← fromOption (OpfMissing fullPath) (loadedZip !! fullPath);
  mret (readOpf (parseXml host opfContent)).

(** The book returned for an aggregate. *)
Definition package (file : File) (opf : Opf) (fullText : list N) : ProcessedBook :=
  {| filename := name file;
     title := opfTitle opf;
     author := opfAuthor opf;
     content := JS.trim fullText;
     size := Z.of_nat (length fullText) |}.

Definition convertEpubToText (host : Host) (file : File) : M ProcessedBook :=
  emit (OnProgress 10 Unzipping) ;;
  loadedZip ← fromOption ZipError (loadAsync file);
  fullPath ← locateOpf host loadedZip;
  let opfDir := opfDirOf fullPath in
  opf ← parseOpf host loadedZip fullPath;
  (* 3. Process Spine Items *)
  let totalItems := length (spine opf) in
  fullText ← processSpine host loadedZip (manifestItems opf) opfDir totalItems
                0 (spine opf) [];
  emit (OnProgress 100 Finalizing) ;;
  mret (package file opf fullText).

(** The percentages passed to [onProgress], in call order. *)
Definition percentages (evs : list Event) : list Z :=
  omap (fun ev => match ev with OnProgress p _ => Some p | _ => None end) evs.

(** *** What one spine entry amounts to

    The possible outcomes of one turn of the loop, read off the branches of
    its body. *)
Inductive ItemResult :=
| Undefined              (* no manifest item under the idref *)
| Skipped                (* rule 1 or rule 2 of the ToC heuristic *)
| Undecodable            (* decodeURIComponent throws *)
| Missing                (* no archive entry at the decoded path *)
| Blank                  (* the text is empty once trimmed *)
| Chapter (text : list N).

Definition itemResult (host : Host) (loadedZip : gmap (list N) (list N))
    (manifestItems : gmap (list N) EpubManifestItem) (opfDir : list N)
    (i : nat) (entry : EpubSpineItem) : ItemResult :=
  match manifestItems !! idref entry with
  | None => Undefined
  | Some item =>
      if skipNav item || skipByName i item then Skipped
      else match JS.decodeURIComponent (opfDir ++ href item) with
           | None => Undecodable
           | Some decodedPath =>
               match loadedZip !! decodedPath with
               | None => Missing
               | Some htmlContent =>
                   let text := extractTextFromHtml host htmlContent in
                   if (0 <? length (JS.trim text))%nat then Chapter text else Blank
               end
           end
  end.

Fixpoint itemResults (host : Host) (loadedZip : gmap (list N) (list N))
    (manifestItems : gmap (list N) EpubManifestItem) (opfDir : list N)
    (i : nat) (entries : list EpubSpineItem) : list ItemResult :=
  match entries with
  | [] => []
  | entry :: rest =>
      itemResult host loadedZip manifestItems opfDir i entry
      :: itemResults host loadedZip manifestItems opfDir (S i) rest
  end.

(** The turn ends with an exception. *)
Definition throws (r : ItemResult) : bool :=
  match r with
  | Undefined | Undecodable => true
  | _ => false
  end.

Definition chapterText (r : ItemResult) : option (list N) :=
  match r with
  | Chapter text => Some text
  | _ => None
  end.

(** The texts of the chapters that reach the aggregate, in reading order. *)
Definition chapters (results : list ItemResult) : list (list N) :=
  omap chapterText results.

(** The aggregate built from chapter texts: each one followed by the
    separator. *)
Definition aggregate (texts : list (list N)) : list N :=
  concat (List.map (fun text => text ++ separator) texts).

(** The console lines of the two kinds, and the results they belong to. *)
Definition isSkipLog (ev : Event) : bool :=
  match ev with
  | LogSkipNav _ | LogSkipHeuristic _ => true
  | _ => false
  end.

Definition isWarning (ev : Event) : bool :=
  match ev with
  | WarnMissing _ => true
  | _ => false
  end.

Definition isSkipped (r : ItemResult) : bool :=
  match r with
  | Skipped => true
  | _ => false
  end.

Definition isMissing (r : ItemResult) : bool :=
  match r with
  | Missing => true
  | _ => false
  end.

(** The results of the turns of the loop, for a file whose container and
    OPF file are found. *)
Definition spineResults (host : Host) (file : File) : option (list ItemResult) :=
  match loadAsync file with
  | Some loadedZip =>
      match (locateOpf host loadedZip).2 with
      | inr fullPath =>
          match loadedZip !! fullPath with
          | Some opfContent =>
              let opf := readOpf (parseXml host opfContent) in
              Some (itemResults host loadedZip (manifestItems opf)
                      (opfDirOf fullPath) 0 (spine opf))
          | None => None
          end
      | inl _ => None
      end
  | None => None
  end.

(** *** Vocabulary of the design document *)

(** The properties attribute read as space-separated tokens. *)
Fixpoint propertyTokens (s : list N) : list (list N) :=
  match s with
  | [] => [[]]
  | c :: r =>
      if c =? 32 then [] :: propertyTokens r
      else match propertyTokens r with
           | t :: ts => (c :: t) :: ts
           | [] => [[c]]
           end
  end.

(** The document a parser hands back for text that is not well-formed XML
    carries a [parsererror] element. *)
Definition hasParserError (doc : Node) : bool :=
  match selectFirst (JS.lit "parsererror") doc with
  | Some _ => true
  | None => false
  end.

(** What the service relies on from [Math.round((i / totalItems) * 60)]:
    division by a positive number, multiplication by 60 and rounding are
    monotone in binary64, and the quotient lies between 0 and 1. *)
Definition roundScaledSound (host : Host) : Prop :=
  ∀ total i j : nat, (i ≤ j)%nat → (j < total)%nat →
    (0 ≤ roundScaled host i total)%Z ∧
    (roundScaled host i total ≤ roundScaled host j total)%Z ∧
    (roundScaled host j total ≤ 60)%Z.

(** The percentages a conversion with [n] spine entries reports when it
    runs to its end. *)
Definition checkpoints (host : Host) (n : nat) : list Z :=
  10%Z :: 20%Z
  :: List.map (fun i => (30 + roundScaled host i n)%Z) (seq 0 n) ++ [100%Z].

Fixpoint nondecreasing (l : list Z) : Prop :=
  match l with
  | [] => True
  | x :: r => match r with [] => True | y :: _ => (x ≤ y)%Z end ∧ nondecreasing r
  end.

End Epub.

(** ** The page that calls the service (App.tsx) *)

Module App.

Import Epub.

Inductive AppState := IDLE | PROCESSING | COMPLETED | ERROR.

(** The file picked in the input element: its MIME type beside what the
    service reads of it. *)
Record Upload := {
  type : list N;
  file : File
}.

(** The state hooks of the component.  [progressMessage] starts as the
    empty string, here [None]. *)
Record State := {
  appState : AppState;
  progress : Z;
  progressMessage : option Message;
  error : option (list N);
  book : option ProcessedBook
}.

Definition initial : State :=
  {| appState := IDLE; progress := 0%Z; progressMessage := None;
     error := None; book := None |}.

Definition invalidFileMessage : list N := JS.lit "Please upload a valid .epub file.".

Definition fallbackMessage : list N :=
  JS.lit "Failed to parse EPUB file. It might be corrupted or DRM-protected.".

Section Handlers.

Variable host : Host.

(** [err.message] of the exceptions the service does not throw itself. *)
Variable foreignMessage : Error → list N.

(** [err.message] *)
Definition message (e : Error) : list N :=
  match e with
  | MissingContainer => JS.lit "Invalid EPUB: Missing META-INF/container.xml"
  | NoRootfile => JS.lit "Invalid EPUB: No rootfile in container.xml"
  | RootfilePathMissing => JS.lit "Invalid EPUB: rootfile path is missing"
  | OpfMissing fullPath =>
      JS.lit "Invalid EPUB: OPF file " ++ fullPath ++ JS.lit " missing"
  | ZipError | URIError | TypeError => foreignMessage e
  end.

(** The callback handed to the service; the console lines do not reach the
    component. *)
Definition updateProgress (s : State) (ev : Event) : State :=
  match ev with
  | OnProgress pct msg =>
      {| appState := appState s; progress := pct; progressMessage := Some msg;
         error := error s; book := book s |}
  | _ => s
  end.

(** [file.type !== "application/epub+zip" && !file.name.endsWith('.epub')] *)
Definition rejected (u : Upload) : bool :=
  negb (bool_decide (type u = JS.lit "application/epub+zip"))
  && negb (JS.endsWith (name (file u)) (JS.lit ".epub")).

(** The state when the handler has finished; [files] is
    [event.target.files?.[0]]. *)
Definition handleFileUpload (files : option Upload) (s : State) : State :=
  match files with
  | None => s
  | Some u =>
      if rejected u then
        {| appState := ERROR; progress := progress s;
           progressMessage := progressMessage s;
           error := Some invalidFileMessage; book := book s |}
      else
        let started :=
          {| appState := PROCESSING; progress := 0%Z;
             progressMessage := progressMessage s;
             error := None; book := book s |} in
        let run := convertEpubToText host (file u) in
        let reported := fold_left updateProgress run.1 started in
        match run.2 with
        | inr result =>
            {| appState := COMPLETED; progress := progress reported;
               progressMessage := progressMessage reported;
               error := error reported; book := Some result |}
        | inl err =>
            {| appState := ERROR; progress := progress reported;
               progressMessage := progressMessage reported;
               error := Some (orElse (Some (message err)) fallbackMessage);
               book := book reported |}
        end
  end.

Definition handleReset (s : State) : State :=
  {| appState := IDLE; progress := 0%Z; progressMessage := progressMessage s;
     error := None; book := None |}.

(** What [handleDownload] offers: the name of the download and the text of
    the blob; nothing without a book. *)
Definition handleDownload (s : State) : option (list N * list N) :=
  match book s with
  | None => None
  | Some b =>
      Some (JS.replaceFirst (filename b) (JS.lit ".epub") [] ++ JS.lit ".txt",
            content b)
  end.

Inductive Action :=
| SelectFile (files : option Upload)
| ClickReset
| ClickDownload.

Definition step (s : State) (a : Action) : State :=
  match a with
  | SelectFile files => handleFileUpload files s
  | ClickReset => handleReset s
  | ClickDownload => s
  end.

(** The state after a sequence of user actions on a fresh page. *)
Definition after (actions : list Action) : State := fold_left step actions initial.

End Handlers.

(** What the views rely on: the completed view has a book and a full
    progress bar, the error view has a message, the idle view starts from
    nothing, and no handler leaves the page in the processing state. *)
Definition consistent (s : State) : Prop :=
  match appState s with
  | IDLE => book s = None ∧ error s = None ∧ progress s = 0%Z
  | PROCESSING => False
  | COMPLETED => (∃ b, book s = Some b) ∧ error s = None ∧ progress s = 100%Z
  | ERROR => ∃ m, error s = Some m ∧ m ≠ []
  end.

End App.

(** ** Sample books *)

Module Fixture.

Import Epub.
Local Open Scope string_scope.

Definition el (name : string) (attrs : list (string * string))
    (children : list Node) : Node :=
  ElementNode (JS.lit name) (JS.lit name)
    (List.map (fun kv => (JS.lit (fst kv), JS.lit (snd kv))) attrs) children.

Definition upperUnit (c : N) : N :=
  (if (97 <=? c) && (c <=? 122) then c - 32 else c)%N.

(** An HTML element of an HTML document: [tagName] is upper-cased. *)
Definition hel (name : string) (children : list Node) : Node :=
  ElementNode (JS.lit name) (List.map upperUnit (JS.lit name)) [] children.

Definition text (s : string) : Node := TextNode (JS.lit s).

Definition renderAttr (kv : list N * list N) : list N :=
  JS.lit " " ++ fst kv ++ JS.lit "='" ++ snd kv ++ JS.lit "'".

(** The markup of a tree. *)
Fixpoint render (n : Node) : list N :=
  match n with
  | TextNode d => d
  | ElementNode l _ attrs cs =>
      match cs with
      | [] => JS.lit "<" ++ l ++ concat (List.map renderAttr attrs) ++ JS.lit "/>"
      | _ :: _ =>
          JS.lit "<" ++ l ++ concat (List.map renderAttr attrs) ++ JS.lit ">"
          ++ concat (List.map render cs) ++ JS.lit "</" ++ l ++ JS.lit ">"
      end
  | CDataNode d => JS.lit "<![CDATA[" ++ d ++ JS.lit "]]>"
  | OtherNode => []
  end.

(** A parser that knows the markup of the given documents. *)
Definition parseBy (known : list Node) (fallback : list N → Node)
    (s : list N) : Node :=
  match List.find (fun d => bool_decide (render d = s)) known with
  | Some d => d
  | None => fallback s
  end.

Definition parserError (_ : list N) : Node :=
  el "parsererror" [] [text "error on line 1 at column 1"].

(** Text without markup parses to a body holding that text. *)
Definition plainPage (s : list N) : Node :=
  hel "html" [hel "head" []; hel "body" [TextNode s]].

Definition page (body : list Node) : Node :=
  hel "html" [hel "head" []; hel "body" body].

(** Rounding of the exact quotient 60 i / total, halves upwards. *)
Definition exactRound (i total : nat) : Z :=
  ((120 * Z.of_nat i + Z.of_nat total) / (2 * Z.of_nat total))%Z.

Definition host (xmlDocs htmlDocs : list Node) : Host :=
  {| parseXml := parseBy xmlDocs parserError;
     parseHtml := parseBy htmlDocs plainPage;
     roundScaled := exactRound |}.

Definition containerDoc : Node :=
  el "container" []
    [el "rootfiles" [] [el "rootfile" [("full-path", "OEBPS/content.opf")] []]].

Definition item (id href : string) (extra : list (string * string)) : Node :=
  el "item" ([("id", id); ("href", href);
              ("media-type", "application/xhtml+xml")] ++ extra) [].

Definition itemref (idref : string) : Node := el "itemref" [("idref", idref)] [].

Definition opfDoc (items : list Node) (refs : list string) : Node :=
  el "package" []
    [el "metadata" [] [el "title" [] [text "T"]];
     el "manifest" [] items;
     el "spine" [] (List.map itemref refs)].

Definition entries (l : list (string * list N)) : gmap (list N) (list N) :=
  list_to_map (List.map (fun kv => (JS.lit (fst kv), snd kv)) l).

Definition epub (opfText : list N) (pages : list (string * list N)) : File :=
  {| name := JS.lit "book.epub";
     loadAsync :=
       Some (entries ([("META-INF/container.xml", render containerDoc);
                       ("OEBPS/content.opf", opfText)] ++ pages)) |}.

(** Two chapters with the texts A and B; the spine also names an unknown
    item. *)
Definition twoChaptersOpf : Node :=
  opfDoc [item "c1" "ch1.html" []; item "c2" "ch2.html" []] ["c1"; "zz"; "c2"].

Definition twoChaptersHost : Host := host [containerDoc; twoChaptersOpf] [].

Definition twoChapters : File :=
  epub (render twoChaptersOpf)
       [("OEBPS/ch1.html", JS.lit "A"); ("OEBPS/ch2.html", JS.lit "B")].

(** The book the service returns for it. *)
Definition twoChaptersBook : ProcessedBook :=
  package twoChapters (readOpf twoChaptersOpf)
          (aggregate [JS.lit "A"; JS.lit "B"]).

(** No container entry at all. *)
Definition noContainer : File :=
  {| name := JS.lit "book.epub"; loadAsync := Some ∅ |}.

(** The container names an OPF file that the archive does not hold. *)
Definition noOpf : File :=
  {| name := JS.lit "book.epub";
     loadAsync := Some (entries [("META-INF/container.xml", render containerDoc)]) |}.

(** The OPF entry holds text that is not XML. *)
Definition brokenOpf : File := epub (JS.lit "<package") [].

Definition brokenOpfHost : Host := host [containerDoc] [].

(** A single item marked as navigation document. *)
Definition navOnlyOpf : Node :=
  opfDoc [item "n" "nav.xhtml" [("properties", "nav cover-image")]] ["n"].

Definition navOnlyHost : Host := host [containerDoc; navOnlyOpf] [].

Definition navOnly : File :=
  epub (render navOnlyOpf) [("OEBPS/nav.xhtml", JS.lit "Contents")].

(** A chapter after a file whose name holds a bare percent sign. *)
Definition percentOpf : Node :=
  opfDoc [item "c1" "100%.html" []; item "c2" "ch2.html" []] ["c1"; "c2"].

Definition percentHost : Host := host [containerDoc; percentOpf] [].

Definition percent : File :=
  epub (render percentOpf)
       [("OEBPS/100%.html", JS.lit "A"); ("OEBPS/ch2.html", JS.lit "B")].

(** A chapter whose file is not in the archive, then one that is. *)
Definition missingFile : File :=
  epub (render twoChaptersOpf) [("OEBPS/ch2.html", JS.lit "B")].

(** An item whose properties hold nav inside a longer token only. *)
Definition navigationItem : EpubManifestItem :=
  {| id := JS.lit "c1"; href := JS.lit "ch1.html";
     mediaType := JS.lit "application/xhtml+xml";
     properties := JS.lit "navigation" |}.

(** The body [<ul><li>One</li><li>Two</li></ul>]. *)
Definition listPage : Node :=
  page [hel "ul" [hel "li" [text "One"]; hel "li" [text "Two"]]].

(** The body [<p>a</p> <br><p>b</p>]. *)
Definition gapPage : Node :=
  page [hel "p" [text "a"]; text " "; hel "br" []; hel "p" [text "b"]].

(** A chapter whose file name holds TOC in capitals. *)
Definition tocItem : EpubManifestItem :=
  {| id := JS.lit "c1"; href := JS.lit "text/TOC.xhtml";
     mediaType := JS.lit "application/xhtml+xml"; properties := [] |}.

(** A chapter whose href escapes a space, stored under its plain name. *)
Definition spaceOpf : Node :=
  opfDoc [item "c1" "my%20book.html" []] ["c1"].

Definition spaceHost : Host := host [containerDoc; spaceOpf] [].

Definition space : File :=
  epub (render spaceOpf) [("OEBPS/my book.html", JS.lit "A")].

(** One chapter; the spine also names [constructor], which is no item of
    the manifest. *)
Definition inheritedOpf : Node :=
  opfDoc [item "c1" "ch1.html" []] ["c1"; "constructor"].

Definition inheritedHost : Host := host [containerDoc; inheritedOpf] [].

Definition inherited : File :=
  epub (render inheritedOpf) [("OEBPS/ch1.html", JS.lit "A")].

(** A chapter whose href holds an escape of a space and, after it, a
    percent sign that starts no escape. *)
Definition escapesOpf : Node :=
  opfDoc [item "c1" "a%20b%zz.html" []] ["c1"].

Definition escapesHost : Host := host [containerDoc; escapesOpf] [].

Definition escapes : File :=
  epub (render escapesOpf) [("OEBPS/a b%zz.html", JS.lit "A")].

(** The entries of a sample file. *)
Definition archiveOf (f : File) : gmap (list N) (list N) :=
  default ∅ (loadAsync f).

Definition chapterItem (href : string) : EpubManifestItem :=
  {| id := JS.lit "c1"; href := JS.lit href;
     mediaType := JS.lit "application/xhtml+xml"; properties := [] |}.

Definition firstEntry : EpubSpineItem := {| idref := JS.lit "c1" |}.

(** The two-chapter book picked in the input, with the type the browser
    gives it. *)
Definition twoChaptersUpload : App.Upload :=
  {| App.type := JS.lit "application/epub+zip"; App.file := twoChapters |}.

(** A text file. *)
Definition notesUpload : App.Upload :=
  {| App.type := JS.lit "text/plain";
     App.file := {| name := JS.lit "notes.txt"; loadAsync := None |} |}.

Definition noMessage (_ : Error) : list N := [].

(** The two-chapter book under a name with a dot before its extension. *)
Definition dotted : File :=
  {| name := JS.lit "my.book.epub"; loadAsync := loadAsync twoChapters |}.

Definition dottedUpload : App.Upload :=
  {| App.type := JS.lit "application/epub+zip"; App.file := dotted |}.

Definition dottedBook : ProcessedBook :=
  package dotted (readOpf twoChaptersOpf) (aggregate [JS.lit "A"; JS.lit "B"]).



End Fixture.

(** * Properties *)

(** ** Strings *)

Module JSFacts.

Import JS.

Lemma trimStart_split (s : list N) :
  ∃ w, s = w ++ trimStart s ∧ allWhite w.
Proof.
  induction s as [|c r [w [Hw Hall]]]; simpl.
  - exists []. split; [reflexivity | constructor].
  - destruct (isWhiteSpace c) eqn:Hc.
    + exists (c :: w). split; [simpl; congruence | by constructor].
    + exists []. split; [reflexivity | constructor].
Qed.

Lemma trimStart_head (s : list N) c r :
  trimStart s = c :: r → isWhiteSpace c = false.
Proof.
  induction s as [|x s IH]; simpl; [discriminate |].
  destruct (isWhiteSpace x) eqn:Hx; [exact IH |].
  intros [= -> _]. exact Hx.
Qed.

Lemma trimStart_fixed c r :
  isWhiteSpace c = false → trimStart (c :: r) = c :: r.
Proof. intros H. simpl. by rewrite H. Qed.

Lemma trimStart_white w s : allWhite w → trimStart (w ++ s) = trimStart s.
Proof.
  induction 1 as [|c w Hc _ IH]; simpl; [reflexivity |]. by rewrite Hc.
Qed.

Lemma length_trimStart s : (length (trimStart s) ≤ length s)%nat.
Proof.
  destruct (trimStart_split s) as [w [Hs _]].
  rewrite Hs at 2. rewrite length_app. lia.
Qed.

Lemma trimEnd_split (s : list N) :
  ∃ w, s = trimEnd s ++ w ∧ allWhite w.
Proof.
  unfold trimEnd. destruct (trimStart_split (rev s)) as [w [Hs Hall]].
  exists (rev w). split.
  - rewrite <- rev_app_distr, <- Hs. by rewrite rev_involutive.
  - unfold allWhite in *. rewrite Forall_forall in *.
    intros c Hc. apply Hall. by apply list_elem_of_In, in_rev, list_elem_of_In.
Qed.

Lemma trimEnd_white s w : allWhite w → trimEnd (s ++ w) = trimEnd s.
Proof.
  intros Hall. unfold trimEnd. rewrite rev_app_distr.
  rewrite trimStart_white; [reflexivity |].
  unfold allWhite in *. rewrite Forall_forall in *.
  intros c Hc. apply Hall. by apply list_elem_of_In, in_rev, list_elem_of_In.
Qed.

Lemma trimEnd_fixed s c :
  isWhiteSpace c = false → trimEnd (s ++ [c]) = s ++ [c].
Proof.
  intros Hc. unfold trimEnd. rewrite rev_app_distr. simpl.
  rewrite Hc. simpl. by rewrite rev_involutive.
Qed.

Lemma trimEnd_nil : trimEnd [] = [].
Proof. reflexivity. Qed.

Lemma length_trimEnd s : (length (trimEnd s) ≤ length s)%nat.
Proof.
  destruct (trimEnd_split s) as [w [Hs _]].
  rewrite Hs at 2. rewrite length_app. lia.
Qed.

Lemma length_trim s : (length (trim s) ≤ length s)%nat.
Proof.
  unfold trim. pose proof (length_trimEnd (trimStart s)).
  pose proof (length_trimStart s). lia.
Qed.

(** A trimmed string does not start with white space. *)
Lemma trim_head s c r : trim s = c :: r → isWhiteSpace c = false.
Proof.
  unfold trim. intros H.
  destruct (trimEnd_split (trimStart s)) as [w [Hs _]].
  rewrite H in Hs. simpl in Hs. by apply trimStart_head in Hs.
Qed.

(** A string that ends with white space loses at least that much. *)
Lemma length_trim_white s w :
  allWhite w → (length (trim (s ++ w)) + length w ≤ length (s ++ w))%nat.
Proof.
  intros Hall. unfold trim.
  destruct (trimStart_split (s ++ w)) as [v [Hv Hvall]].
  destruct (decide (trimStart (s ++ w) = [])) as [Hnil | Hne].
  - rewrite Hnil. simpl. rewrite length_app. lia.
  - (* the suffix [w] survives [trimStart] *)
    assert (∃ s', trimStart (s ++ w) = s' ++ w) as [s' Hs'].
    { clear Hv Hvall. induction s as [|c s IH]; simpl in *.
      - exfalso. apply Hne. rewrite <- (app_nil_r w).
        rewrite trimStart_white; [reflexivity | assumption].
      - destruct (isWhiteSpace c).
        + by apply IH.
        + by exists (c :: s). }
    rewrite Hs', trimEnd_white by assumption.
    pose proof (length_trimEnd s') as Hle.
    pose proof (length_trimStart (s ++ w)) as Hle'.
    rewrite Hs' in Hle'. rewrite length_app in Hle'. lia.
Qed.

Lemma startsWith_spec s pat :
  startsWith s pat = true ↔ ∃ post, s = pat ++ post.
Proof.
  revert s. induction pat as [|p pr IH]; intros s; simpl.
  - destruct s; split; eauto.
  - destruct s as [|c sr]; simpl.
    + split; [discriminate | intros [post H]; discriminate].
    + rewrite andb_true_iff, N.eqb_eq, IH. split.
      * intros [-> [post ->]]. by exists post.
      * intros [post [= -> ->]]. eauto.
Qed.

(** [includes] is the substring test. *)
Lemma includes_spec s pat :
  includes s pat = true ↔ ∃ pre post, s = pre ++ pat ++ post.
Proof.
  induction s as [|c r IH]; cbn [includes].
  - rewrite orb_false_r, startsWith_spec. split.
    + intros [post ->]. by exists [], post.
    + intros [pre [post H]]. destruct pre; simpl in H.
      * by exists post.
      * discriminate.
  - rewrite orb_true_iff, startsWith_spec, IH. split.
    + intros [[post ->] | [pre [post ->]]].
      * by exists [], post.
      * by exists (c :: pre), post.
    + intros [pre [post H]]. destruct pre as [|x pre]; simpl in H.
      * left. by exists post.
      * right. injection H as -> ->. by exists pre, post.
Qed.

End JSFacts.

(** ** Lines of the converted text *)

Module HtmlFacts.

Import JS JSFacts.

Lemma trimEnd_snoc s c :
  trimEnd (s ++ [c]) = if isWhiteSpace c then trimEnd s else s ++ [c].
Proof.
  unfold trimEnd. rewrite rev_app_distr. cbn.
  destruct (isWhiteSpace c); [reflexivity |].
  cbn. by rewrite rev_involutive.
Qed.

Lemma trimEnd_last s r c : trimEnd s = r ++ [c] → isWhiteSpace c = false.
Proof.
  unfold trimEnd. intros H.
  assert (trimStart (rev s) = c :: rev r) as Hs.
  { rewrite <- (rev_involutive (trimStart (rev s))), H, rev_app_distr. reflexivity. }
  by apply trimStart_head in Hs.
Qed.

Lemma trim_isTrimmed s : isTrimmed (trim s).
Proof.
  split.
  - intros c r. apply trim_head.
  - intros r c. unfold trim. apply trimEnd_last.
Qed.

Lemma trim_elem s c : c ∈ trim s → c ∈ s.
Proof.
  unfold trim. intros Hc.
  destruct (trimEnd_split (trimStart s)) as [w [Hw _]].
  destruct (trimStart_split s) as [v [Hv _]].
  rewrite Hv, Hw, !elem_of_app. auto.
Qed.

Lemma splitLines_nonempty s : splitLines s ≠ [].
Proof.
  destruct s as [|c r]; cbn; [done |].
  destruct (c =? LF); [done |]. by destruct (splitLines r).
Qed.

(** No line holds a newline. *)
Lemma splitLines_no_newline s :
  Forall (fun line => LF ∉ line) (splitLines s).
Proof.
  induction s as [|c r IH]; cbn.
  - constructor; [apply not_elem_of_nil | constructor].
  - destruct (c =? LF) eqn:Hc.
    + constructor; [apply not_elem_of_nil | exact IH].
    + destruct (splitLines r) as [|l ls] eqn:Hr; [by apply splitLines_nonempty in Hr |].
      inversion IH as [|? ? Hl Hls]; subst. constructor; [| exact Hls].
      apply N.eqb_neq in Hc. intros [Heq | Hin]%elem_of_cons; [congruence | by apply Hl].
Qed.

Lemma splitLines_line l : LF ∉ l → splitLines l = [l].
Proof.
  induction l as [|c r IH]; [done |].
  intros Hl. cbn. destruct (c =? LF) eqn:Hc.
  - apply N.eqb_eq in Hc. subst. exfalso. apply Hl. by left.
  - rewrite IH; [reflexivity |]. intros Hin. apply Hl. by right.
Qed.

Lemma splitLines_line_app l s :
  LF ∉ l → splitLines (l ++ LF :: s) = l :: splitLines s.
Proof.
  induction l as [|c r IH]; [done |].
  intros Hl. cbn. destruct (c =? LF) eqn:Hc.
  - apply N.eqb_eq in Hc. subst. exfalso. apply Hl. by left.
  - rewrite IH; [reflexivity |]. intros Hin. apply Hl. by right.
Qed.

(** Splitting undoes joining. *)
Lemma splitLines_joinLines ls :
  ls ≠ [] → Forall (fun line => LF ∉ line) ls → splitLines (joinLines ls) = ls.
Proof.
  induction ls as [|l rest IH]; [done |].
  intros _ Hall. inversion Hall as [|? ? Hl Hrest]; subst.
  destruct rest as [|l' rest].
  - cbn. by apply splitLines_line.
  - cbn [joinLines]. rewrite splitLines_line_app by done.
    f_equal. by apply IH.
Qed.

Lemma splitLines_snoc_newline s : splitLines (s ++ [LF]) = splitLines s ++ [[]].
Proof.
  induction s as [|c r IH]; [reflexivity |].
  cbn. destruct (c =? LF); [by rewrite IH |].
  rewrite IH. destruct (splitLines r) as [|l ls] eqn:Hr;
    [by apply splitLines_nonempty in Hr | reflexivity].
Qed.

Lemma splitLines_snoc s c :
  c ≠ LF →
  ∃ ls l, splitLines s = ls ++ [l] ∧ splitLines (s ++ [c]) = ls ++ [l ++ [c]].
Proof.
  intros Hc. apply N.eqb_neq in Hc. induction s as [|x r (ls & l & Hs & Hsc)].
  - exists [], []. cbn. by rewrite Hc.
  - cbn. rewrite Hs, Hsc. destruct (x =? LF).
    + by exists ([] :: ls), l.
    + destruct ls as [|l0 ls]; cbn.
      * by exists [], (x :: l).
      * by exists ((x :: l0) :: ls), l.
Qed.

(** Trimming the whole text keeps its lines trimmed. *)
Lemma trimStart_lines s :
  Forall isTrimmed (splitLines s) → Forall isTrimmed (splitLines (trimStart s)).
Proof.
  induction s as [|c r IH]; [done |].
  cbn [trimStart]. destruct (isWhiteSpace c) eqn:Hws; [| done].
  intros Hall. apply IH. revert Hall. cbn [splitLines].
  destruct (c =? LF).
  - by inversion 1.
  - destruct (splitLines r) as [|l ls]; inversion 1 as [|? ? [Hhead _] _]; subst;
      specialize (Hhead _ _ eq_refl); congruence.
Qed.

Lemma trimEnd_lines s :
  Forall isTrimmed (splitLines s) → Forall isTrimmed (splitLines (trimEnd s)).
Proof.
  induction s as [|c s IH] using rev_ind; [done |].
  rewrite trimEnd_snoc. destruct (isWhiteSpace c) eqn:Hws; [| done].
  intros Hall. apply IH. revert Hall.
  destruct (decide (c = LF)) as [-> | Hc].
  - rewrite splitLines_snoc_newline. by intros [? _]%Forall_app.
  - destruct (splitLines_snoc s c Hc) as (ls & l & -> & ->).
    intros [_ Hlast]%Forall_app. inversion Hlast as [|? ? [_ Hend] _]; subst.
    specialize (Hend _ _ eq_refl). congruence.
Qed.

(** The part of C5 that holds: whatever the walk produced, no line of the
    normalised text has leading or trailing white space. *)
Lemma normalize_lines_are_trimmed rawText :
  Forall isTrimmed (splitLines (Html.normalize rawText)).
Proof.
  unfold Html.normalize, trim at 2.
  apply trimEnd_lines, trimStart_lines.
  rewrite splitLines_joinLines.
  - apply Forall_forall. intros line (l & -> & _)%list_elem_of_fmap.
    apply trim_isTrimmed.
  - intros Hnil%fmap_nil_inv. by apply splitLines_nonempty in Hnil.
  - apply Forall_forall. intros line (l & -> & Hl)%list_elem_of_fmap Hin.
    pose proof (splitLines_no_newline (collapseNewlines rawText)) as Hno.
    rewrite Forall_forall in Hno. by apply (Hno l Hl), trim_elem.
Qed.

Lemma converter_lines_are_trimmed host html :
  Forall isTrimmed (splitLines (Epub.extractTextFromHtml host html)).
Proof. apply normalize_lines_are_trimmed. Qed.

End HtmlFacts.

(** ** The loop over the spine *)

Module EpubFacts.

Import JS JSFacts Epub.

#[local] Arguments separator : simpl never.
#[local] Arguments extractTextFromHtml : simpl never.
#[local] Arguments trim : simpl never.
#[local] Arguments Nat.ltb : simpl never.
#[local] Arguments decodeURIComponent : simpl never.

Lemma run_bind {A B} (m : M A) (k : A → M B) :
  m ≫= k = match m.2 with
           | inl e => (m.1, inl e)
           | inr a => (m.1 ++ (k a).1, (k a).2)
           end.
Proof.
  destruct m as [evs [e | a]]; simpl; [reflexivity |].
  unfold mbind, M_bind. by destruct (k a).
Qed.

Lemma percentages_app evs evs' :
  percentages (evs ++ evs') = percentages evs ++ percentages evs'.
Proof. unfold percentages. apply omap_app. Qed.

Lemma chapters_cons r rs :
  chapters (r :: rs) =
  match chapterText r with
  | Some text => text :: chapters rs
  | None => chapters rs
  end.
Proof. reflexivity. Qed.

Lemma aggregate_cons text texts :
  aggregate (text :: texts) = text ++ separator ++ aggregate texts.
Proof. unfold aggregate. cbn [List.map concat]. by rewrite <- app_assoc. Qed.

Lemma aggregate_ends text texts :
  ∃ x, aggregate (text :: texts) = x ++ separator.
Proof.
  revert text. induction texts as [|t ts IH]; intros text.
  - exists text. rewrite aggregate_cons. change (aggregate []) with (@nil N).
    by rewrite app_nil_r.
  - destruct (IH t) as [x Hx]. exists (text ++ separator ++ x).
    by rewrite aggregate_cons, Hx, <- !app_assoc.
Qed.

Lemma percentages_progress p message evs :
  percentages (OnProgress p message :: evs) = p :: percentages evs.
Proof. reflexivity. Qed.

Section Loop.

Variable host : Host.
Variable loadedZip : gmap (list N) (list N).
Variable manifestItems : gmap (list N) EpubManifestItem.
Variable opfDir : list N.
Variable totalItems : nat.

Let percentAt (i : nat) : Z := (30 + roundScaled host i totalItems)%Z.
Let result := itemResult host loadedZip manifestItems opfDir.
Let results := itemResults host loadedZip manifestItems opfDir.
Let body := processItem host loadedZip manifestItems opfDir totalItems.
Let loop := processSpine host loadedZip manifestItems opfDir totalItems.

(** The body of the loop does what [itemResult] says. *)
Lemma processItem_outcome i entry fullText :
  (body i entry fullText).2 =
  match result i entry with
  | Undefined => inl TypeError
  | Undecodable => inl URIError
  | Chapter text => inr (fullText ++ text ++ separator)
  | Skipped | Missing | Blank => inr fullText
  end.
Proof.
  unfold body, result, processItem, itemResult.
  destruct (manifestItems !! idref entry) as [item |]; [| reflexivity].
  cbn. destruct (skipNav item); [reflexivity |].
  destruct (skipByName i item); [reflexivity |]. cbn.
  destruct (decodeURIComponent (opfDir ++ href item)) as [path |]; [| reflexivity].
  cbn. destruct (loadedZip !! path) as [html |]; [| reflexivity].
  by destruct (Nat.ltb _ _).
Qed.

(** Every turn reports its progress exactly once. *)
Lemma processItem_percentages i entry fullText :
  percentages (body i entry fullText).1 = [percentAt i].
Proof.
  unfold body, processItem, percentAt.
  destruct (manifestItems !! idref entry) as [item |]; [| reflexivity].
  cbn. destruct (skipNav item); [reflexivity |].
  destruct (skipByName i item); [reflexivity |]. cbn.
  destruct (decodeURIComponent (opfDir ++ href item)) as [path |]; [| reflexivity].
  cbn. destruct (loadedZip !! path) as [html |]; [| reflexivity].
  by destruct (Nat.ltb _ _).
Qed.

Lemma processSpine_cons i entry rest fullText :
  loop i (entry :: rest) fullText =
  match (body i entry fullText).2 with
  | inl e => ((body i entry fullText).1, inl e)
  | inr fullText' =>
      ((body i entry fullText).1 ++ (loop (S i) rest fullText').1,
       (loop (S i) rest fullText').2)
  end.
Proof. unfold loop, body. cbn [processSpine]. apply run_bind. Qed.

(** When no turn throws, the loop returns the aggregate of the chapters
    appended to what it started from. *)
Lemma processSpine_outcome i entries fullText :
  forallb (fun r => negb (throws r)) (results i entries) = true →
  (loop i entries fullText).2 =
  inr (fullText ++ aggregate (chapters (results i entries))).
Proof.
  revert i fullText. induction entries as [|entry rest IH]; intros i fullText.
  - intros _. cbn. by rewrite app_nil_r.
  - unfold results. cbn [itemResults forallb]. fold results. fold (result i entry).
    rewrite andb_true_iff. intros [Hr Hrest].
    rewrite processSpine_cons, processItem_outcome, chapters_cons.
    destruct (result i entry) as [| | | | | text]; try discriminate Hr;
      cbn [snd chapterText]; rewrite (IH _ _ Hrest); try reflexivity.
    by rewrite aggregate_cons, <- !app_assoc.
Qed.

(** The loop throws nothing but what its body throws. *)
Lemma processSpine_error i entries fullText e :
  (loop i entries fullText).2 = inl e → e = URIError ∨ e = TypeError.
Proof.
  revert i fullText. induction entries as [|entry rest IH]; intros i fullText.
  - discriminate.
  - rewrite processSpine_cons. pose proof (processItem_outcome i entry fullText) as Hb.
    destruct ((body i entry fullText).2) as [e' | fullText'].
    + cbn. intros [= ->]. destruct (result i entry); naive_solver.
    + cbn. apply IH.
Qed.

(** The percentages reported by the loop are those of the indices it
    reached, all of them when it returns. *)
Lemma processSpine_percentages i entries fullText :
  ∃ k, (k ≤ length entries)%nat ∧
       percentages (loop i entries fullText).1 = List.map percentAt (seq i k) ∧
       (∀ t, (loop i entries fullText).2 = inr t → k = length entries).
Proof.
  revert i fullText. induction entries as [|entry rest IH]; intros i fullText.
  - exists 0%nat. cbn. auto.
  - rewrite processSpine_cons.
    pose proof (processItem_percentages i entry fullText) as Hp.
    destruct ((body i entry fullText).2) as [e | fullText'].
    + exists 1%nat. cbn [fst snd length seq List.map]. repeat split; [lia | exact Hp | discriminate].
    + destruct (IH (S i) fullText') as [k [Hk [Hperc Hall]]].
      exists (S k). cbn [fst snd length seq List.map]. repeat split.
      * lia.
      * by rewrite percentages_app, Hp, Hperc.
      * intros t Ht. f_equal. eauto.
Qed.

(** The aggregate only grows by whole chapters, each closed by the
    separator. *)
Lemma processSpine_shape i entries fullText t :
  (loop i entries fullText).2 = inr t →
  t = fullText ∨ ∃ x, t = x ++ separator.
Proof.
  revert i fullText. induction entries as [|entry rest IH]; intros i fullText.
  - cbn. intros [= <-]. by left.
  - rewrite processSpine_cons. pose proof (processItem_outcome i entry fullText) as Hb.
    destruct ((body i entry fullText).2) as [e | fullText']; [discriminate |].
    cbn [snd]. intros Ht. destruct (IH _ _ Ht) as [-> | Hx]; [| by right].
    destruct (result i entry); try discriminate Hb; injection Hb as ->; auto.
    right. exists (fullText ++ text). by rewrite <- app_assoc.
Qed.

(** A chapter text is what the converter returned, and is not blank: it
    starts with a character that is not white space. *)
Lemma itemResult_chapter i entry text :
  result i entry = Chapter text →
  ∃ c r, text = c :: r ∧ isWhiteSpace c = false.
Proof.
  unfold result, itemResult.
  destruct (manifestItems !! idref entry) as [item |]; [| discriminate].
  destruct (skipNav item || skipByName i item); [discriminate |].
  destruct (decodeURIComponent _) as [path |]; [| discriminate].
  destruct (loadedZip !! path) as [html |]; [| discriminate].
  destruct (Nat.ltb _ _) eqn:Hlen; [| discriminate].
  intros [= <-]. apply Nat.ltb_lt in Hlen.
  unfold extractTextFromHtml, Html.extractTextFromDoc, Html.normalize in *.
  destruct (trim (joinLines _)) as [|c r] eqn:Htrim.
  - change (trim []) with (@nil N) in Hlen. simpl in Hlen. lia.
  - exists c, r. split; [reflexivity |]. by apply trim_head in Htrim.
Qed.

Lemma chapters_result i entries text :
  text ∈ chapters (results i entries) →
  ∃ k entry, result k entry = Chapter text.
Proof.
  revert i. induction entries as [|entry rest IH]; intros i.
  - cbn. by intros ?%elem_of_nil.
  - unfold results. cbn [itemResults]. fold results. fold (result i entry).
    rewrite chapters_cons. destruct (result i entry) eqn:Hr; cbn [chapterText]; eauto.
    intros [-> | Hin]%elem_of_cons; eauto.
Qed.

(** A loop that returns met no turn that throws, and returns the
    aggregate of the chapters. *)
Lemma processSpine_returns i entries fullText t :
  (loop i entries fullText).2 = inr t →
  forallb (fun r => negb (throws r)) (results i entries) = true ∧
  t = fullText ++ aggregate (chapters (results i entries)).
Proof.
  intros Hrun.
  assert (forallb (fun r => negb (throws r)) (results i entries) = true) as Hok.
  { revert i fullText Hrun. induction entries as [|entry rest IH]; intros i fullText.
    - reflexivity.
    - rewrite processSpine_cons. unfold results. cbn [itemResults forallb].
      fold results. fold (result i entry).
      pose proof (processItem_outcome i entry fullText) as Hb.
      destruct ((body i entry fullText).2) as [e | fullText']; [discriminate |].
      cbn [snd]. intros Hrest%IH. rewrite Hrest, andb_true_r.
      by destruct (result i entry). }
  split; [exact Hok |].
  rewrite (processSpine_outcome _ _ _ Hok) in Hrun. by injection Hrun.
Qed.

End Loop.

(** *** The stages around the loop *)

Lemma locateOpf_events host loadedZip : (locateOpf host loadedZip).1 = [].
Proof.
  unfold locateOpf.
  destruct (loadedZip !! lit "META-INF/container.xml") as [xml |]; [| reflexivity].
  cbn. destruct (Dom.selectFirst _ _) as [rootfile |]; [| reflexivity].
  cbn. by destruct (nonEmpty _).
Qed.

Lemma parseOpf_run host loadedZip fullPath :
  parseOpf host loadedZip fullPath =
  ([OnProgress 20 ReadingMetadata],
   match loadedZip !! fullPath with
   | Some opfContent => inr (readOpf (parseXml host opfContent))
   | None => inl (OpfMissing fullPath)
   end).
Proof. unfold parseOpf. by destruct (loadedZip !! fullPath). Qed.

(** The conversion once the container and the OPF file are found. *)
Lemma convert_run host file loadedZip fullPath opfContent :
  loadAsync file = Some loadedZip →
  (locateOpf host loadedZip).2 = inr fullPath →
  loadedZip !! fullPath = Some opfContent →
  let opf := readOpf (parseXml host opfContent) in
  let run := processSpine host loadedZip (manifestItems opf) (opfDirOf fullPath)
               (length (spine opf)) 0 (spine opf) [] in
  convertEpubToText host file =
  match run.2 with
  | inl e =>
      (OnProgress 10 Unzipping :: OnProgress 20 ReadingMetadata :: run.1, inl e)
  | inr fullText =>
      (OnProgress 10 Unzipping :: OnProgress 20 ReadingMetadata :: run.1
         ++ [OnProgress 100 Finalizing],
       inr (package file opf fullText))
  end.
Proof.
  intros Hzip Hloc Hopf opf run. unfold convertEpubToText.
  rewrite Hzip. cbn [fromOption]. rewrite !run_bind. cbn [fst snd emit M_ret mret].
  rewrite run_bind, Hloc, locateOpf_events. cbn [app].
  rewrite run_bind, parseOpf_run, Hopf. cbn [fst snd app].
  rewrite run_bind. fold opf. fold run.
  destruct (run.2) as [e | fullText]; [reflexivity |].
  rewrite run_bind. reflexivity.
Qed.

(** The conversion stops at the first stage that fails. *)
Lemma convert_stages host file :
  (loadAsync file = None ∧
   convertEpubToText host file = ([OnProgress 10 Unzipping], inl ZipError)) ∨
  (∃ loadedZip e,
     loadAsync file = Some loadedZip ∧
     (locateOpf host loadedZip).2 = inl e ∧
     convertEpubToText host file = ([OnProgress 10 Unzipping], inl e)) ∨
  (∃ loadedZip fullPath,
     loadAsync file = Some loadedZip ∧
     (locateOpf host loadedZip).2 = inr fullPath ∧
     loadedZip !! fullPath = None ∧
     convertEpubToText host file =
       ([OnProgress 10 Unzipping; OnProgress 20 ReadingMetadata],
        inl (OpfMissing fullPath))) ∨
  (∃ loadedZip fullPath opfContent,
     loadAsync file = Some loadedZip ∧
     (locateOpf host loadedZip).2 = inr fullPath ∧
     loadedZip !! fullPath = Some opfContent).
Proof.
  destruct (loadAsync file) as [loadedZip |] eqn:Hzip.
  - right. destruct ((locateOpf host loadedZip).2) as [e | fullPath] eqn:Hloc.
    + left. exists loadedZip, e. repeat split; try done.
      unfold convertEpubToText. rewrite Hzip. cbn [fromOption].
      rewrite !run_bind. cbn [fst snd emit M_ret mret].
      by rewrite run_bind, Hloc, locateOpf_events.
    + right. destruct (loadedZip !! fullPath) as [opfContent |] eqn:Hopf.
      * right. by exists loadedZip, fullPath, opfContent.
      * left. exists loadedZip, fullPath. repeat split; try done.
        unfold convertEpubToText. rewrite Hzip. cbn [fromOption].
        rewrite !run_bind. cbn [fst snd emit M_ret mret].
        rewrite run_bind, Hloc, locateOpf_events. cbn [app].
        by rewrite run_bind, parseOpf_run, Hopf.
  - left. split; [done |]. unfold convertEpubToText. by rewrite Hzip.
Qed.

Lemma spineResults_inv host file results :
  spineResults host file = Some results →
  ∃ loadedZip fullPath opfContent,
    loadAsync file = Some loadedZip ∧
    (locateOpf host loadedZip).2 = inr fullPath ∧
    loadedZip !! fullPath = Some opfContent ∧
    results = itemResults host loadedZip
                (manifestItems (readOpf (parseXml host opfContent)))
                (opfDirOf fullPath) 0 (spine (readOpf (parseXml host opfContent))).
Proof.
  unfold spineResults.
  destruct (loadAsync file) as [loadedZip |]; [| discriminate].
  destruct ((locateOpf host loadedZip).2) as [| fullPath] eqn:Hloc; [discriminate |].
  destruct (loadedZip !! fullPath) as [opfContent |] eqn:Hopf; [| discriminate].
  intros [= <-]. by exists loadedZip, fullPath, opfContent.
Qed.

(** When no turn throws, the conversion returns the book packaged from the
    aggregate of the chapters. *)
Lemma convert_completes host file results :
  spineResults host file = Some results →
  forallb (fun r => negb (throws r)) results = true →
  ∃ opf, (convertEpubToText host file).2 =
         inr (package file opf (aggregate (chapters results))).
Proof.
  intros (loadedZip & fullPath & opfContent & Hzip & Hloc & Hopf & ->)%spineResults_inv Hok.
  rewrite (convert_run _ _ _ _ _ Hzip Hloc Hopf).
  rewrite (processSpine_outcome _ _ _ _ _ _ _ _ Hok). cbn [snd app].
  by eexists.
Qed.

(** A successful conversion went through all stages. *)
Lemma convert_inr_inv host file book :
  (convertEpubToText host file).2 = inr book →
  ∃ loadedZip fullPath opfContent fullText,
    loadAsync file = Some loadedZip ∧
    (locateOpf host loadedZip).2 = inr fullPath ∧
    loadedZip !! fullPath = Some opfContent ∧
    let opf := readOpf (parseXml host opfContent) in
    (processSpine host loadedZip (manifestItems opf) (opfDirOf fullPath)
       (length (spine opf)) 0 (spine opf) []).2 = inr fullText ∧
    book = package file opf fullText.
Proof.
  destruct (convert_stages host file)
    as [[_ ->] | [(? & ? & _ & _ & ->) | [(? & ? & _ & _ & _ & ->)
        | (loadedZip & fullPath & opfContent & Hzip & Hloc & Hopf)]]];
    try discriminate.
  rewrite (convert_run _ _ _ _ _ Hzip Hloc Hopf).
  destruct (processSpine _ _ _ _ _ _ _ _).2 as [e | fullText] eqn:Hrun;
    [discriminate |].
  intros [= <-]. by exists loadedZip, fullPath, opfContent, fullText.
Qed.

(** The content of a book whose first chapter starts with a visible
    character: only the two newlines after the last dash line are trimmed. *)
Lemma trim_closed_aggregate c s :
  isWhiteSpace c = false →
  trim ((c :: s) ++ separator) = (c :: s) ++ [LF; LF] ++ dashes.
Proof.
  intros Hc. unfold trim. rewrite <- app_comm_cons, trimStart_fixed by done.
  rewrite app_comm_cons. unfold separator.
  change dashes with (removelast dashes ++ [45]).
  rewrite !app_assoc. rewrite trimEnd_white.
  - by rewrite trimEnd_fixed.
  - by repeat constructor.
Qed.

(** *** Progress *)

Lemma nondecreasing_prefix l1 l2 :
  l1 `prefix_of` l2 → nondecreasing l2 → nondecreasing l1.
Proof.
  intros [k ->]. induction l1 as [|x l1 IH]; [done |].
  cbn. intros [Hx Hrest]. split; [| by apply IH].
  destruct l1; [done | exact Hx].
Qed.

Lemma nondecreasing_loop (f : nat → Z) n i k :
  (i + k ≤ n)%nat →
  (∀ a b, (a ≤ b)%nat → (b < n)%nat → (f a ≤ f b)%Z) →
  (∀ a, (a < n)%nat → (f a ≤ 100)%Z) →
  nondecreasing (List.map f (seq i k) ++ [100%Z]).
Proof.
  intros Hik Hmono Hmax. revert i Hik. induction k as [|k IH]; intros i Hik.
  - cbn. auto.
  - cbn [seq List.map app nondecreasing]. split; [| apply IH; lia].
    destruct k as [|k]; cbn.
    + apply Hmax. lia.
    + apply Hmono; lia.
Qed.

Lemma checkpoints_nondecreasing host n :
  roundScaledSound host → nondecreasing (checkpoints host n).
Proof.
  intros Hsound. unfold checkpoints. cbn [nondecreasing]. split; [lia |]. split.
  - destruct n as [|n]; cbn; [lia |].
    destruct (Hsound (S n) 0%nat 0%nat) as (? & ? & ?); lia.
  - apply (nondecreasing_loop _ n); [lia | |].
    + intros a b Hab Hb. destruct (Hsound n a b Hab Hb) as (? & ? & ?). lia.
    + intros a Ha. destruct (Hsound n a a) as (? & ? & ?); lia.
Qed.

(** What was reported is an initial part of the checkpoints, all of them
    when the conversion returns a book. *)
Lemma convert_percentages host file :
  ∃ n, percentages (convertEpubToText host file).1 `prefix_of` checkpoints host n ∧
       (∀ book, (convertEpubToText host file).2 = inr book →
                percentages (convertEpubToText host file).1 = checkpoints host n).
Proof.
  destruct (convert_stages host file)
    as [[_ ->] | [(? & ? & _ & _ & ->) | [(? & ? & _ & _ & _ & ->)
        | (loadedZip & fullPath & opfContent & Hzip & Hloc & Hopf)]]].
  - exists 0%nat. split; [by exists [20; 100]%Z | discriminate].
  - exists 0%nat. split; [by exists [20; 100]%Z | discriminate].
  - exists 0%nat. split; [by exists [100]%Z | discriminate].
  - rewrite (convert_run _ _ _ _ _ Hzip Hloc Hopf).
    match goal with |- context [processSpine ?h ?z ?m ?d ?t ?i ?l ?a] =>
      destruct (processSpine_percentages h z m d t i l a) as (k & Hk & Hperc & Hall);
      set (run := processSpine h z m d t i l a) in *
    end.
    set (n := length (spine (readOpf (parseXml host opfContent)))) in *.
    exists n. unfold checkpoints.
    destruct (run.2) as [e | fullText].
    + split; [| discriminate]. cbn [fst].
      rewrite !percentages_progress.
      rewrite Hperc. do 2 apply prefix_cons.
      assert (seq 0 n = seq 0 k ++ seq k (n - k)) as ->
        by (rewrite <- seq_app; f_equal; lia).
      rewrite List.map_app, <- app_assoc. by eexists.
    + rewrite (Hall _ eq_refl) in Hperc. cbn [fst snd].
      rewrite !percentages_progress.
      rewrite percentages_app, Hperc. split; [| intros ? _]; reflexivity.
Qed.

(** *** Manifest and spine *)

Lemma parseSpine_filter m opfDoc :
  parseSpine m opfDoc =
  filter (fun e => idref e ≠ [] ∧
                   (is_Some (m !! idref e) ∨ inheritedTruthy m (idref e) = true))
         (List.map spineOfNode (spineNodes opfDoc)).
Proof.
  unfold parseSpine. induction (List.map spineOfNode (spineNodes opfDoc)) as [|e l IH].
  - reflexivity.
  - cbn [List.filter]. rewrite filter_cons, IH. unfold retained.
    destruct (idref e) as [|c r] eqn:He.
    + rewrite decide_False; [reflexivity | by intros [? _]].
    + case_bool_decide as Hm; cbn [orb].
      * rewrite decide_True; [reflexivity | by split; [| left]].
      * destruct (inheritedTruthy m (c :: r)) eqn:Hin.
        -- rewrite decide_True; [reflexivity | by split; [| right]].
        -- rewrite decide_False; [reflexivity | by intros [_ [? | ?]]].
Qed.

(** An entry the filter keeps although the manifest has no item for it is
    one whose identifier names an inherited member. *)
Lemma retained_without_item m e :
  retained m e = true → m !! idref e = None →
  inheritedTruthy m (idref e) = true.
Proof.
  unfold retained. intros Hkept Hnone. destruct (idref e) as [|c r]; [done |].
  rewrite Hnone in Hkept. rewrite bool_decide_false in Hkept; [done |].
  by intros [? ?].
Qed.

(** *** The navigation rule *)

Lemma skipNav_includes item :
  skipNav item = includes (properties item) (lit "nav").
Proof. unfold skipNav. by destruct (properties item). Qed.

Lemma propertyTokens_head s t ts :
  propertyTokens s = t :: ts → ∃ post, s = t ++ post.
Proof.
  revert t ts. induction s as [|c r IH]; intros t ts; cbn.
  - intros [= <- _]. by exists [].
  - destruct (c =? 32) eqn:Hc.
    + intros [= <- _]. by eexists.
    + destruct (propertyTokens r) as [|t0 ts0] eqn:Hr.
      * intros [= <- _]. exists r. reflexivity.
      * intros [= <- _]. destruct (IH _ _ eq_refl) as [post ->]. by exists post.
Qed.

(** A token of the properties is a substring of them. *)
Lemma propertyTokens_substring s t :
  t ∈ propertyTokens s → ∃ pre post, s = pre ++ t ++ post.
Proof.
  induction s as [|c r IH]; cbn.
  - intros ->%list_elem_of_singleton. by exists [], [].
  - destruct (c =? 32).
    + intros [-> | Hin]%elem_of_cons.
      * by exists [], (c :: r).
      * destruct (IH Hin) as (pre & post & ->). by exists (c :: pre), post.
    + destruct (propertyTokens r) as [|t0 ts0] eqn:Hr.
      * intros ->%list_elem_of_singleton. by exists [], r.
      * intros [-> | Hin]%elem_of_cons.
        -- destruct (propertyTokens_head _ _ _ Hr) as [post ->]. by exists [], post.
        -- destruct IH as (pre & post & ->); [by right |]. by exists (c :: pre), post.
Qed.

End EpubFacts.

(** ** The conversion result *)

Import JS JSFacts Epub EpubFacts.

(** C1, as the claim states it, fails: the book with the two chapters A and
    B does not have the content "A" + separator + "B". *)
Lemma two_chapters_plain_join_fails :
  spineResults Fixture.twoChaptersHost Fixture.twoChapters
  = Some [Chapter (lit "A"); Chapter (lit "B")] ∧
  ∃ book, (convertEpubToText Fixture.twoChaptersHost Fixture.twoChapters).2 = inr book ∧
          content book ≠ lit "A" ++ separator ++ lit "B".
Proof.
  split; [by vm_compute |].
  eexists. split; [by vm_compute |]. by vm_compute.
Qed.

(** C1, amended: when the loop completes and exactly two chapters, with the
    texts [a] and [b], reach the aggregate, the content of the book is [a],
    the separator, [b], a blank line and the dash line: the separator also
    follows the last chapter, and trimming removes only the two newlines
    that end it. *)
Theorem two_chapters_content host file results a b :
  spineResults host file = Some results →
  forallb (fun r => negb (throws r)) results = true →
  chapters results = [a; b] →
  ∃ book, (convertEpubToText host file).2 = inr book ∧
          content book = a ++ separator ++ b ++ [LF; LF] ++ dashes.
Proof.
  intros Hres Hok Hch.
  destruct (convert_completes _ _ _ Hres Hok) as [opf Hrun].
  exists (package file opf (aggregate (chapters results))). split; [exact Hrun |].
  destruct (spineResults_inv _ _ _ Hres) as (zip & fullPath & opfContent & _ & _ & _ & Hr).
  assert (a ∈ chapters results) as Ha by (rewrite Hch; apply elem_of_cons; by left).
  rewrite Hr in Ha. apply chapters_result in Ha as (k & entry & Ha).
  apply itemResult_chapter in Ha as (c & r & -> & Hc).
  rewrite Hch. cbn [content package]. rewrite !aggregate_cons.
  change (aggregate []) with (@nil N). rewrite app_nil_r.
  rewrite (app_assoc (c :: r)), (app_assoc (_ ++ _)), <- (app_comm_cons r).
  rewrite <- app_comm_cons. rewrite trim_closed_aggregate by done.
  cbn [app]. by rewrite <- !app_assoc.
Qed.

Lemma two_chapters_content_witness :
  ∃ book, (convertEpubToText Fixture.twoChaptersHost Fixture.twoChapters).2 = inr book ∧
          content book = lit "A" ++ separator ++ lit "B" ++ [LF; LF] ++ dashes.
Proof.
  apply (two_chapters_content Fixture.twoChaptersHost Fixture.twoChapters
           [Chapter (lit "A"); Chapter (lit "B")]); by vm_compute.
Defined.

(** C3, as the claim states it, fails: the size of the two-chapter book is
    not the length of its content. *)
Lemma size_is_not_content_length :
  ∃ book, (convertEpubToText Fixture.twoChaptersHost Fixture.twoChapters).2 = inr book ∧
          size book ≠ Z.of_nat (length (content book)).
Proof. eexists. split; [by vm_compute |]. by vm_compute. Qed.

(** C3, amended: the size of the returned book is the length of the
    aggregate before trimming, and the content is that aggregate trimmed.
    When no chapter was appended both are empty; otherwise the size exceeds
    the length of the content by at least the two newlines that end the
    last separator. *)
Theorem size_is_aggregate_length host file book :
  (convertEpubToText host file).2 = inr book →
  ∃ results,
    spineResults host file = Some results ∧
    content book = trim (aggregate (chapters results)) ∧
    size book = Z.of_nat (length (aggregate (chapters results))) ∧
    ((chapters results = [] ∧ content book = [] ∧ size book = 0%Z) ∨
     (Z.of_nat (length (content book)) + 2 ≤ size book)%Z).
Proof.
  intros (zip & fullPath & opfContent & fullText & Hzip & Hloc & Hopf & Hrun & ->)%convert_inr_inv.
  apply processSpine_returns in Hrun as [_ ->]. cbn [app].
  eexists. split.
  { unfold spineResults. rewrite Hzip, Hloc, Hopf. reflexivity. }
  split; [reflexivity |]. split; [reflexivity |].
  destruct (chapters _) as [|text texts]; [by left | right].
  destruct (aggregate_ends text texts) as [x ->].
  cbn [content size package]. unfold separator. rewrite !app_assoc.
  pose proof (length_trim_white ((x ++ [LF; LF]) ++ dashes) [LF; LF]) as Hlen.
  cbn [length] in Hlen. specialize (Hlen ltac:(by repeat constructor)). lia.
Qed.

Lemma size_is_aggregate_length_witness :
  ∃ results,
    spineResults Fixture.twoChaptersHost Fixture.twoChapters = Some results ∧
    content Fixture.twoChaptersBook = trim (aggregate (chapters results)) ∧
    size Fixture.twoChaptersBook = Z.of_nat (length (aggregate (chapters results))) ∧
    ((chapters results = [] ∧ content Fixture.twoChaptersBook = [] ∧
      size Fixture.twoChaptersBook = 0%Z) ∨
     (Z.of_nat (length (content Fixture.twoChaptersBook)) + 2
      ≤ size Fixture.twoChaptersBook)%Z).
Proof.
  apply (size_is_aggregate_length Fixture.twoChaptersHost Fixture.twoChapters).
  by vm_compute.
Defined.

(** C10: when every turn of the loop ends in a skip by the classifier, in
    a path that is absent from the archive, or in blank text, the
    conversion returns a book with empty content and size 0. *)
Theorem nothing_included_empty_book host file results :
  spineResults host file = Some results →
  Forall (fun r => r = Skipped ∨ r = Missing ∨ r = Blank) results →
  ∃ book, (convertEpubToText host file).2 = inr book ∧
          content book = [] ∧ size book = 0%Z.
Proof.
  intros Hres Hall.
  assert (forallb (fun r => negb (throws r)) results = true) as Hok.
  { apply forallb_forall. intros r Hr%list_elem_of_In.
    rewrite Forall_forall in Hall. by destruct (Hall r Hr) as [-> | [-> | ->]]. }
  assert (chapters results = []) as Hch.
  { clear Hres Hok. induction Hall as [|r rs Hr _ IH]; [reflexivity |].
    rewrite chapters_cons. by destruct Hr as [-> | [-> | ->]]. }
  destruct (convert_completes _ _ _ Hres Hok) as [opf Hrun].
  exists (package file opf (aggregate (chapters results))).
  split; [exact Hrun |]. by rewrite Hch.
Qed.

Lemma nothing_included_empty_book_witness :
  ∃ book, (convertEpubToText Fixture.navOnlyHost Fixture.navOnly).2 = inr book ∧
          content book = [] ∧ size book = 0%Z.
Proof.
  apply (nothing_included_empty_book Fixture.navOnlyHost Fixture.navOnly [Skipped]).
  - by vm_compute.
  - repeat constructor.
Defined.

(** ** Failures *)

(** C4, as the claim states it, fails: the OPF entry of this archive holds
    text for which the parser returns an error document, and the conversion
    returns a book. *)
Lemma unparseable_manifest_is_accepted :
  hasParserError (parseXml Fixture.brokenOpfHost (lit "<package")) = true ∧
  ∃ book, (convertEpubToText Fixture.brokenOpfHost Fixture.brokenOpf).2 = inr book.
Proof. split; [by vm_compute |]. eexists. by vm_compute. Qed.

(** C4, amended: when the archive has no entry at the path the container
    names, the conversion fails with the manifest error and returns no
    book.  When the entry is there its text is never checked for
    well-formedness: whatever document the parser returns, the conversion
    does not fail with the manifest error, and when that document has no
    itemref under a spine (as the error document of a text that is not XML)
    the conversion returns a book with empty content and size 0. *)
Theorem manifest_missing_or_unchecked host file loadedZip fullPath :
  loadAsync file = Some loadedZip →
  (locateOpf host loadedZip).2 = inr fullPath →
  (loadedZip !! fullPath = None →
   (convertEpubToText host file).2 = inl (OpfMissing fullPath) ∧
   errorKind (OpfMissing fullPath) = MalformedManifest) ∧
  (∀ opfContent, loadedZip !! fullPath = Some opfContent →
     (∀ e, (convertEpubToText host file).2 = inl e →
           errorKind e ≠ MalformedManifest) ∧
     (spineNodes (parseXml host opfContent) = [] →
      ∃ book, (convertEpubToText host file).2 = inr book ∧
              content book = [] ∧ size book = 0%Z)).
Proof.
  intros Hzip Hloc. split.
  - intros Hnone. split; [| reflexivity].
    destruct (convert_stages host file)
      as [[Hz _] | [(z & e & Hz & Hl & _) | [(z & p & Hz & Hl & _ & ->)
          | (z & p & c & Hz & Hl & Hc)]]]; simplify_eq; cbn; congruence.
  - intros opfContent Hopf. rewrite (convert_run _ _ _ _ _ Hzip Hloc Hopf). split.
    + intros e.
      destruct (processSpine _ _ _ _ _ _ _ _).2 as [e' | fullText] eqn:Hrun;
        [| discriminate].
      intros [= <-]. by apply processSpine_error in Hrun as [-> | ->].
    + intros Hspine. unfold readOpf at 3 6. cbn [spine].
      unfold parseSpine. rewrite Hspine. cbn. eauto.
Qed.

Lemma manifest_missing_or_unchecked_witness :
  (Fixture.entries [("META-INF/container.xml"%string, Fixture.render Fixture.containerDoc)]
     !! lit "OEBPS/content.opf" = None →
   (convertEpubToText Fixture.brokenOpfHost Fixture.noOpf).2
   = inl (OpfMissing (lit "OEBPS/content.opf")) ∧
   errorKind (OpfMissing (lit "OEBPS/content.opf")) = MalformedManifest) ∧
  (∀ opfContent,
     Fixture.entries [("META-INF/container.xml"%string, Fixture.render Fixture.containerDoc)]
       !! lit "OEBPS/content.opf" = Some opfContent →
     (∀ e, (convertEpubToText Fixture.brokenOpfHost Fixture.noOpf).2 = inl e →
           errorKind e ≠ MalformedManifest) ∧
     (spineNodes (parseXml Fixture.brokenOpfHost opfContent) = [] →
      ∃ book, (convertEpubToText Fixture.brokenOpfHost Fixture.noOpf).2 = inr book ∧
              content book = [] ∧ size book = 0%Z)).
Proof.
  apply (manifest_missing_or_unchecked Fixture.brokenOpfHost Fixture.noOpf);
    by vm_compute.
Defined.

(** C7: a file name with a bare percent sign makes [decodeURIComponent]
    throw inside the loop; nothing catches it, the conversion is rejected
    after the progress call of the first item, no book is returned and the
    second chapter is never read. *)
Theorem undecodable_path_aborts :
  spineResults Fixture.percentHost Fixture.percent
  = Some [Undecodable; Chapter (lit "B")] ∧
  convertEpubToText Fixture.percentHost Fixture.percent =
  ([OnProgress 10 Unzipping; OnProgress 20 ReadingMetadata;
    OnProgress 30 (ProcessingChapter 1 2)],
   inl URIError).
Proof. split; by vm_compute. Qed.

(** In general: a turn that throws rejects the whole conversion. *)
Lemma throwing_turn_rejects_conversion host file results :
  spineResults host file = Some results →
  forallb (fun r => negb (throws r)) results = false →
  ∃ e, (convertEpubToText host file).2 = inl e ∧ (e = URIError ∨ e = TypeError).
Proof.
  intros (zip & fullPath & opfContent & Hzip & Hloc & Hopf & ->)%spineResults_inv Hthrows.
  rewrite (convert_run _ _ _ _ _ Hzip Hloc Hopf).
  destruct (processSpine _ _ _ _ _ _ _ _).2 as [e | fullText] eqn:Hrun.
  - exists e. split; [reflexivity |]. by apply processSpine_error in Hrun.
  - apply processSpine_returns in Hrun as [Hok _]. congruence.
Qed.

(** The neighbouring failure is handled in the loop: the first chapter of
    this book is not in the archive, a warning is logged and the second
    chapter is converted. *)
Lemma missing_entry_is_skipped :
  convertEpubToText Fixture.twoChaptersHost Fixture.missingFile =
  ([OnProgress 10 Unzipping; OnProgress 20 ReadingMetadata;
    OnProgress 30 (ProcessingChapter 1 2); WarnMissing (lit "OEBPS/ch1.html");
    OnProgress 60 (ProcessingChapter 2 2); OnProgress 100 Finalizing],
   inr (package Fixture.missingFile (readOpf Fixture.twoChaptersOpf)
          (aggregate [lit "B"]))).
Proof. by vm_compute. Qed.

(** C8, as the claim states it, fails: for an archive without container
    entry the only, hence final, progress call reports 10. *)
Lemma failed_conversion_stops_below_100 :
  (convertEpubToText Fixture.twoChaptersHost Fixture.noContainer).2 = inl MissingContainer ∧
  last (percentages (convertEpubToText Fixture.twoChaptersHost Fixture.noContainer).1)
  ≠ Some 100%Z.
Proof. split; by vm_compute. Qed.

(** C8, amended: the percentages a conversion reports never decrease, and
    when the conversion returns a book the final call reports 100. *)
Theorem progress_nondecreasing_final_100 host file :
  roundScaledSound host →
  nondecreasing (percentages (convertEpubToText host file).1) ∧
  (∀ book, (convertEpubToText host file).2 = inr book →
           last (percentages (convertEpubToText host file).1) = Some 100%Z).
Proof.
  intros Hsound. destruct (convert_percentages host file) as (n & Hpre & Hall).
  split.
  - eapply nondecreasing_prefix; [exact Hpre |]. by apply checkpoints_nondecreasing.
  - intros book Hbook. rewrite (Hall _ Hbook). unfold checkpoints.
    by rewrite !last_cons, last_snoc.
Qed.

Lemma exactRound_sound xmlDocs htmlDocs :
  roundScaledSound (Fixture.host xmlDocs htmlDocs).
Proof.
  intros total i j Hij Hj. cbn. unfold Fixture.exactRound.
  repeat split.
  - apply Z.div_pos; lia.
  - apply Z.div_le_mono; lia.
  - apply Z.lt_succ_r, Z.div_lt_upper_bound; lia.
Qed.

Lemma progress_nondecreasing_final_100_witness :
  nondecreasing (percentages (convertEpubToText Fixture.twoChaptersHost Fixture.twoChapters).1) ∧
  (∀ book, (convertEpubToText Fixture.twoChaptersHost Fixture.twoChapters).2 = inr book →
           last (percentages (convertEpubToText Fixture.twoChaptersHost Fixture.twoChapters).1)
           = Some 100%Z).
Proof.
  apply (progress_nondecreasing_final_100 Fixture.twoChaptersHost Fixture.twoChapters).
  apply exactRound_sound.
Defined.

(** ** Classification and reading order *)

(** C6, as the claim states it, fails: the properties "navigation" do not
    hold the token nav, and rule 1 skips the item. *)
Lemma nav_inside_longer_token_is_skipped :
  skipNav Fixture.navigationItem = true ∧
  ¬ (lit "nav" ∈ propertyTokens (properties Fixture.navigationItem)).
Proof.
  split; [by vm_compute |].
  change (propertyTokens _) with [lit "navigation"].
  by intros [=]%list_elem_of_singleton.
Qed.

(** C6, amended: rule 1 skips an item exactly when its properties contain
    nav as a substring.  So an item with the token nav is skipped, at every
    position of the spine, and so is an item where nav only occurs inside a
    longer token. *)
Theorem nav_rule_is_substring_test item :
  (skipNav item = true ↔ ∃ pre post, properties item = pre ++ lit "nav" ++ post) ∧
  (lit "nav" ∈ propertyTokens (properties item) → skipNav item = true) ∧
  (∀ host loadedZip manifestItems opfDir i entry,
     manifestItems !! idref entry = Some item →
     skipNav item = true →
     itemResult host loadedZip manifestItems opfDir i entry = Skipped).
Proof.
  rewrite skipNav_includes. split; [apply includes_spec |]. split.
  - intros Hin. apply includes_spec. by apply propertyTokens_substring.
  - intros host loadedZip manifestItems opfDir i entry Hitem Hskip.
    unfold itemResult. rewrite Hitem, skipNav_includes, Hskip. reflexivity.
Qed.

Lemma nav_rule_is_substring_test_witness :
  skipNav Fixture.navigationItem = true ∧
  itemResult Fixture.twoChaptersHost ∅
    {[ lit "c1" := Fixture.navigationItem ]} [] 7 {| idref := lit "c1" |} = Skipped.
Proof.
  destruct (nav_rule_is_substring_test Fixture.navigationItem) as (Hsub & _ & Hpos).
  assert (skipNav Fixture.navigationItem = true) as Hskip.
  { apply Hsub. exists [], (lit "igation"). reflexivity. }
  split; [exact Hskip |].
  apply Hpos; [by vm_compute | exact Hskip].
Defined.

(** C9: the claim fails on an OPF document whose spine names
    [constructor] while the manifest has no such item.  The identifier is
    no key of the manifest items, yet the entry is retained after the
    chapter before it, because the read of the manifest object finds the
    member inherited from [Object.prototype]; the loop then has no item
    for it and the conversion is rejected with a [TypeError] at the second
    turn: the unknown reference is neither dropped nor silent. *)
Theorem inherited_name_is_retained :
  manifestItems (readOpf Fixture.inheritedOpf) !! lit "constructor" = None ∧
  spine (readOpf Fixture.inheritedOpf)
  = [ {| idref := lit "c1" |}; {| idref := lit "constructor" |} ] ∧
  itemResult Fixture.inheritedHost (Fixture.archiveOf Fixture.inherited)
    (manifestItems (readOpf Fixture.inheritedOpf)) (lit "OEBPS/") 1
    {| idref := lit "constructor" |} = Undefined ∧
  convertEpubToText Fixture.inheritedHost Fixture.inherited
  = ([ OnProgress 10 Unzipping;
       OnProgress 20 ReadingMetadata;
       OnProgress 30 (ProcessingChapter 1 2);
       OnProgress 60 (ProcessingChapter 2 2) ],
     inl TypeError).
Proof.
  split; [by vm_compute |]. split; [by vm_compute |].
  split; by vm_compute.
Qed.

(** ** The converter *)

(** C2: for the body [<ul><li>One</li><li>Two</li></ul>] the converter
    returns the two items on one line, without a newline between them: a
    list item gets the bullet prefix and no suffix. *)
Theorem list_items_run_together :
  Fixture.render Fixture.listPage
  = lit "<html><head/><body><ul><li>One</li><li>Two</li></ul></body></html>" ∧
  extractTextFromHtml (Fixture.host [] [Fixture.listPage])
    (Fixture.render Fixture.listPage)
  = Html.bullet ++ lit "One" ++ Html.bullet ++ lit "Two" ∧
  extractTextFromHtml (Fixture.host [] [Fixture.listPage])
    (Fixture.render Fixture.listPage)
  ≠ Html.bullet ++ lit "One" ++ [LF] ++ Html.bullet ++ lit "Two".
Proof. repeat split; by vm_compute. Qed.

(** C5: for the body [<p>a</p> <br><p>b</p>] the converter returns a text
    with three consecutive newlines: the line that held only the space is
    emptied after the runs of newlines were collapsed. *)
Theorem blank_line_leaves_three_newlines :
  Fixture.render Fixture.gapPage
  = lit "<html><head/><body><p>a</p> <br/><p>b</p></body></html>" ∧
  extractTextFromHtml (Fixture.host [] [Fixture.gapPage])
    (Fixture.render Fixture.gapPage)
  = lit "a" ++ [LF; LF; LF] ++ lit "b" ∧
  includes (extractTextFromHtml (Fixture.host [] [Fixture.gapPage])
              (Fixture.render Fixture.gapPage))
           [LF; LF; LF] = true.
Proof. repeat split; by vm_compute. Qed.

(** * Further properties of the converter *)

Module NormalizeFacts.

Import JS JSFacts HtmlFacts.

Lemma includes_skip c t :
  (c =? LF) = false → includes (c :: t) tripleNewline = includes t tripleNewline.
Proof. intros Hc. cbn. by rewrite Hc. Qed.

Lemma includes_false_app a b pat :
  includes (a ++ b) pat = false →
  includes a pat = false ∧ includes b pat = false.
Proof.
  intros Hab. split.
  - destruct (includes a pat) eqn:Ha; [| done].
    apply includes_spec in Ha as (pre & post & ->).
    rewrite <- Hab. symmetry. apply includes_spec.
    exists pre, (post ++ b). by rewrite <- !app_assoc.
  - destruct (includes b pat) eqn:Hb; [| done].
    apply includes_spec in Hb as (pre & post & ->).
    rewrite <- Hab. symmetry. apply includes_spec.
    exists (a ++ pre), post. by rewrite <- !app_assoc.
Qed.

Lemma emitRun_cases run :
  emitRun run = [] ∨ emitRun run = [LF] ∨ emitRun run = [LF; LF].
Proof.
  unfold emitRun. destruct (3 <=? run)%nat eqn:Hrun; [auto |].
  apply Nat.leb_gt in Hrun. destruct run as [|[|[|run]]]; cbn; auto; lia.
Qed.

Lemma collapseFrom_no_triple run s :
  includes (collapseFrom run s) tripleNewline = false.
Proof.
  revert run. induction s as [|c r IH]; intros run; cbn [collapseFrom].
  - destruct (emitRun_cases run) as [-> | [-> | ->]]; reflexivity.
  - destruct (c =? LF) eqn:Hc; [apply IH |].
    destruct (emitRun_cases run) as [-> | [-> | ->]]; cbn [app];
      unfold tripleNewline; cbn; rewrite Hc; cbn; apply (IH 0%nat).
Qed.

Lemma long_run_has_triple run s :
  (3 ≤ run)%nat → includes (repeat LF run ++ s) tripleNewline = true.
Proof.
  intros Hrun. apply includes_spec. exists [], (repeat LF (run - 3) ++ s).
  replace run with (3 + (run - 3))%nat at 1 by lia.
  rewrite repeat_app, <- app_assoc. reflexivity.
Qed.

Lemma collapseFrom_fixed run s :
  includes (repeat LF run ++ s) tripleNewline = false →
  collapseFrom run s = repeat LF run ++ s.
Proof.
  revert run. induction s as [|c r IH]; intros run Hno.
  - cbn. rewrite app_nil_r. unfold emitRun.
    destruct (3 <=? run)%nat eqn:Hrun; [| reflexivity].
    apply Nat.leb_le in Hrun. by rewrite long_run_has_triple in Hno.
  - cbn [collapseFrom]. destruct (c =? LF) eqn:Hc.
    + apply N.eqb_eq in Hc. subst c.
      replace (repeat LF run ++ LF :: r) with (repeat LF (S run) ++ r) in *
        by (cbn [repeat]; rewrite repeat_cons, <- app_assoc; reflexivity).
      by apply IH.
    + unfold emitRun. destruct (3 <=? run)%nat eqn:Hrun.
      * apply Nat.leb_le in Hrun. by rewrite long_run_has_triple in Hno.
      * apply includes_false_app in Hno as [_ Hno].
        rewrite includes_skip in Hno by done.
        by rewrite (IH 0%nat Hno).
Qed.

(** The first normalisation step leaves no run of three newlines, and
    does not touch a text that has none; applying it twice changes nothing
    more. *)
Theorem collapse_removes_long_runs s :
  includes (collapseNewlines s) tripleNewline = false ∧
  (includes s tripleNewline = false → collapseNewlines s = s) ∧
  collapseNewlines (collapseNewlines s) = collapseNewlines s.
Proof.
  assert (∀ t, includes t tripleNewline = false → collapseNewlines t = t) as Hfix.
  { intros t Ht. unfold collapseNewlines. by rewrite collapseFrom_fixed. }
  split; [apply collapseFrom_no_triple |]. split; [apply Hfix |].
  apply Hfix, collapseFrom_no_triple.
Qed.

Lemma collapse_removes_long_runs_witness :
  collapseNewlines (lit "a" ++ [LF; LF] ++ lit "b") = lit "a" ++ [LF; LF] ++ lit "b".
Proof.
  destruct (collapse_removes_long_runs (lit "a" ++ [LF; LF] ++ lit "b"))
    as (_ & Hfixed & _).
  apply Hfixed. by vm_compute.
Defined.

Lemma trim_fixed s : isTrimmed s → trim s = s.
Proof.
  intros [Hhead Hlast]. unfold trim.
  assert (trimStart s = s) as ->.
  { destruct s as [|c r]; [reflexivity |]. apply trimStart_fixed. by eapply Hhead. }
  destruct s as [|c r] using rev_ind; [reflexivity |].
  apply trimEnd_fixed. by eapply Hlast.
Qed.


Lemma extract_trim_fixed host html :
  trim (Epub.extractTextFromHtml host html) = Epub.extractTextFromHtml host html.
Proof. apply trim_fixed, trim_isTrimmed. Qed.

(** The text the converter returns has no leading or trailing white
    space, so the [text.trim()] of the loop does not change it, and a
    chapter counts as blank exactly when the converter returned the empty
    string. *)
Theorem converter_output_is_trimmed host html :
  isTrimmed (Epub.extractTextFromHtml host html) ∧
  trim (Epub.extractTextFromHtml host html) = Epub.extractTextFromHtml host html ∧
  ((0 <? length (trim (Epub.extractTextFromHtml host html)))%nat = false
   ↔ Epub.extractTextFromHtml host html = []).
Proof.
  assert (isTrimmed (Epub.extractTextFromHtml host html)) as Ht
    by apply trim_isTrimmed.
  split; [exact Ht |]. rewrite (trim_fixed _ Ht). split; [reflexivity |].
  rewrite Nat.ltb_ge. destruct (Epub.extractTextFromHtml host html); cbn; split;
    (done || lia).
Qed.

End NormalizeFacts.

Module ConverterFacts.

Import JS JSFacts HtmlFacts NormalizeFacts Html.





(** *** A body of paragraphs *)










End ConverterFacts.

(** * Further properties of the pipeline *)

Module PipelineFacts.

Import JS JSFacts Epub EpubFacts.

#[local] Arguments separator : simpl never.
#[local] Arguments extractTextFromHtml : simpl never.
#[local] Arguments trim : simpl never.
#[local] Arguments Nat.ltb : simpl never.
#[local] Arguments decodeURIComponent : simpl never.

(** ** Locating the OPF file *)

Lemma locateOpf_run host loadedZip :
  locateOpf host loadedZip =
  ([], match loadedZip !! lit "META-INF/container.xml" with
       | None => inl MissingContainer
       | Some containerXml =>
           match selectFirst (lit "rootfile") (parseXml host containerXml) with
           | None => inl NoRootfile
           | Some rootfile =>
               match nonEmpty (getAttribute rootfile (lit "full-path")) with
               | None => inl RootfilePathMissing
               | Some fullPath => inr fullPath
               end
           end
       end).
Proof.
  unfold locateOpf.
  destruct (loadedZip !! lit "META-INF/container.xml") as [xml |]; [| reflexivity].
  cbn. destruct (selectFirst _ _) as [rootfile |]; [| reflexivity].
  cbn. by destruct (nonEmpty _).
Qed.

(** A container that cannot be resolved rejects the conversion right after
    the first progress call: the entry META-INF/container.xml is missing,
    its document has no rootfile element, or the first rootfile has no
    full-path, or an empty one.  And whenever the conversion fails with a
    container error, 10 is all that was reported. *)
Theorem container_failures host file loadedZip :
  loadAsync file = Some loadedZip →
  (loadedZip !! lit "META-INF/container.xml" = None →
   convertEpubToText host file
   = ([OnProgress 10 Unzipping], inl MissingContainer)) ∧
  (∀ containerXml,
     loadedZip !! lit "META-INF/container.xml" = Some containerXml →
     selectFirst (lit "rootfile") (parseXml host containerXml) = None →
     convertEpubToText host file = ([OnProgress 10 Unzipping], inl NoRootfile)) ∧
  (∀ containerXml rootfile,
     loadedZip !! lit "META-INF/container.xml" = Some containerXml →
     selectFirst (lit "rootfile") (parseXml host containerXml) = Some rootfile →
     nonEmpty (getAttribute rootfile (lit "full-path")) = None →
     convertEpubToText host file
     = ([OnProgress 10 Unzipping], inl RootfilePathMissing)) ∧
  (∀ e, (convertEpubToText host file).2 = inl e →
        errorKind e = MalformedContainer →
        (convertEpubToText host file).1 = [OnProgress 10 Unzipping]).
Proof.
  intros Hzip.
  assert (∀ e, (locateOpf host loadedZip).2 = inl e →
               convertEpubToText host file = ([OnProgress 10 Unzipping], inl e)) as Hfail.
  { intros e He.
    destruct (convert_stages host file)
      as [[Hz _] | [(z & e' & Hz & Hl & ->) | [(z & p & Hz & Hl & _)
          | (z & p & c & Hz & Hl & _)]]]; simplify_eq; congruence. }
  repeat split.
  - intros Hc. apply Hfail. by rewrite locateOpf_run, Hc.
  - intros xml Hc Hroot. apply Hfail. by rewrite locateOpf_run, Hc, Hroot.
  - intros xml rootfile Hc Hroot Hpath. apply Hfail.
    by rewrite locateOpf_run, Hc, Hroot, Hpath.
  - intros e He Hkind.
    destruct (convert_stages host file)
      as [[_ Hrun] | [(z & e' & _ & _ & Hrun) | [(z & p & _ & _ & _ & Hrun)
          | (z & p & c & Hz & Hl & Hc)]]].
    + by rewrite Hrun.
    + by rewrite Hrun.
    + rewrite Hrun in He. cbn in He. injection He as <-. discriminate Hkind.
    + rewrite (convert_run _ _ _ _ _ Hz Hl Hc) in He.
      destruct (processSpine _ _ _ _ _ _ _ _).2 as [e' | t] eqn:Hloop; [| done].
      cbn in He. injection He as <-.
      apply processSpine_error in Hloop as [-> | ->]; discriminate Hkind.
Qed.

Lemma container_failures_witness :
  convertEpubToText Fixture.twoChaptersHost Fixture.noContainer
  = ([OnProgress 10 Unzipping], inl MissingContainer).
Proof.
  apply (container_failures Fixture.twoChaptersHost Fixture.noContainer ∅);
    by vm_compute.
Defined.

(** ** The directory of the OPF file *)

Lemma lastIndexOfFrom_split c i acc s :
  (c ∉ s → lastIndexOfFrom c i acc s = acc) ∧
  (c ∈ s → ∃ dir base, s = dir ++ c :: base ∧ (c ∉ base) ∧
                       lastIndexOfFrom c i acc s = (i + Z.of_nat (length dir))%Z).
Proof.
  revert i acc. induction s as [|x r IH]; intros i acc.
  - split; [done | by intros ?%elem_of_nil].
  - cbn [lastIndexOfFrom].
    destruct (IH (i + 1)%Z (if x =? c then i else acc)) as [IHout IHin].
    destruct (decide (c ∈ r)) as [Hin | Hout].
    + split; [intros Hno; exfalso; apply Hno; by right |]. intros _.
      destruct (IHin Hin) as (dir & base & -> & Hbase & ->).
      exists (x :: dir), base. repeat split; [done |]. cbn [length]. lia.
    + rewrite (IHout Hout). destruct (x =? c) eqn:Hx.
      * apply N.eqb_eq in Hx. subst x. split; [intros Hno; exfalso; apply Hno; by left |].
        intros _. exists [], r. repeat split; [done |]. cbn. lia.
      * apply N.eqb_neq in Hx. split; [done |].
        intros [-> | Hin]%elem_of_cons; done.
Qed.

(** The directory of the OPF file is the part of its path up to and with
    the last slash, and is empty when the path has none: the path is the
    directory followed by a file name without slash. *)
Theorem opfDir_is_path_up_to_last_slash fullPath :
  ∃ base, fullPath = opfDirOf fullPath ++ base ∧ (47 ∉ base) ∧
          (47 ∉ fullPath → opfDirOf fullPath = []) ∧
          (47 ∈ fullPath → ∃ dir, opfDirOf fullPath = dir ++ [47]).
Proof.
  unfold opfDirOf, substring0, lastIndexOf.
  destruct (lastIndexOfFrom_split 47 0 (-1) fullPath) as [Hout Hin].
  destruct (decide (47 ∈ fullPath)) as [Hslash | Hnone].
  - destruct (Hin Hslash) as (dir & base & -> & Hbase & ->).
    replace (Z.to_nat (0 + Z.of_nat (length dir) + 1)) with (length (dir ++ [47]))
      by (rewrite length_app; cbn; lia).
    replace (dir ++ 47 :: base) with ((dir ++ [47]) ++ base) by by rewrite <- app_assoc.
    rewrite take_app_length. exists base. repeat split; [done | | by exists dir].
    intros Hno. exfalso. apply Hno. rewrite !elem_of_app. left. right. by left.
  - rewrite (Hout Hnone). cbn. exists fullPath. repeat split; done.
Qed.

Lemma opfDir_is_path_up_to_last_slash_witness :
  ∃ dir, opfDirOf (lit "OEBPS/content.opf") = dir ++ [47].
Proof.
  destruct (opfDir_is_path_up_to_last_slash (lit "OEBPS/content.opf"))
    as (base & _ & _ & _ & Hslash).
  apply Hslash. apply list_elem_of_In. cbn. tauto.
Defined.

(** ** What the book carries over *)

Lemma orElse_nonempty o d : d ≠ [] → orElse o d ≠ [].
Proof. intros Hd. unfold orElse, nonEmpty. by destruct o as [[|c r] |]. Qed.

Lemma convert_filename host file book :
  (convertEpubToText host file).2 = inr book → filename book = name file.
Proof.
  by intros (zip & fullPath & opfContent & fullText & _ & _ & _ & _ & ->)%convert_inr_inv.
Qed.



(** ** The manifest *)

Lemma addManifestNode_item m node :
  addManifestNode m node =
  match manifestItemOf node with
  | Some item => <[ id item := item ]> m
  | None => m
  end.
Proof.
  unfold addManifestNode, manifestItemOf.
  destruct (nonEmpty (getAttribute node (lit "id"))) as [i |];
    destruct (nonEmpty (getAttribute node (lit "href"))) as [h |];
    by destruct (nonEmpty (getAttribute node (lit "media-type"))) as [mt |].
Qed.

Lemma find_app_last {A} (f : A → bool) l x :
  List.find f (l ++ [x]) =
  match List.find f l with
  | Some y => Some y
  | None => if f x then Some x else None
  end.
Proof.
  induction l as [|y l IH]; cbn; [by destruct (f x) |].
  by destruct (f y).
Qed.

Lemma fold_addManifestNode nodes m k :
  fold_left addManifestNode nodes m !! k =
  match List.find (fun item => bool_decide (id item = k))
                  (rev (omap manifestItemOf nodes)) with
  | Some item => Some item
  | None => m !! k
  end.
Proof.
  revert m. induction nodes as [|node nodes IH]; intros m; [reflexivity |].
  cbn [fold_left]. rewrite IH, addManifestNode_item.
  change (omap manifestItemOf (node :: nodes))
    with (match manifestItemOf node with
          | Some item => item :: omap manifestItemOf nodes
          | None => omap manifestItemOf nodes
          end).
  destruct (manifestItemOf node) as [item |]; [| reflexivity].
  cbn [rev]. rewrite find_app_last.
  destruct (List.find _ (rev _)); [reflexivity |].
  case_bool_decide as Hk.
  - subst k. apply lookup_insert_eq.
  - by apply lookup_insert_ne.
Qed.

Lemma parseManifest_lookup opfDoc k :
  parseManifest opfDoc !! k =
  List.find (fun item => bool_decide (id item = k))
    (rev (omap manifestItemOf (selectChildren (lit "manifest") (lit "item") opfDoc))).
Proof.
  unfold parseManifest. rewrite fold_addManifestNode, lookup_empty.
  by destruct (List.find _ _).
Qed.

(** The manifest maps an identifier to the last item element, in document
    order, that carries this identifier together with an href and a media
    type: a later item overwrites an earlier one, and an item that lacks
    one of the three attributes, or has it empty, is passed over. *)
Theorem manifest_keeps_last_item opfDoc k :
  parseManifest opfDoc !! k =
  List.find (fun item => bool_decide (id item = k))
    (rev (omap manifestItemOf (selectChildren (lit "manifest") (lit "item") opfDoc))).
Proof.
  unfold parseManifest. rewrite fold_addManifestNode, lookup_empty.
  by destruct (List.find _ _).
Qed.

Lemma manifestItemOf_fields node item :
  manifestItemOf node = Some item →
  id item ≠ [] ∧ href item ≠ [] ∧ mediaType item ≠ [].
Proof.
  unfold manifestItemOf, nonEmpty.
  destruct (getAttribute node (lit "id")) as [[|? ?] |]; try discriminate;
  destruct (getAttribute node (lit "href")) as [[|? ?] |]; try discriminate;
  destruct (getAttribute node (lit "media-type")) as [[|? ?] |]; try discriminate.
  by intros [= <-].
Qed.

(** Every item of the manifest is stored under its own identifier, and its
    identifier, href and media type are not empty; so the item the loop
    finds for a spine entry has that entry's idref as its id and a path to
    resolve. *)
Theorem manifest_items_are_complete opfDoc k item :
  parseManifest opfDoc !! k = Some item →
  id item = k ∧ k ≠ [] ∧ href item ≠ [] ∧ mediaType item ≠ [].
Proof.
  rewrite parseManifest_lookup. intros Hfind.
  apply find_some in Hfind as [Hin Hk]. apply bool_decide_eq_true in Hk.
  apply in_rev, list_elem_of_In, list_elem_of_omap in Hin as (node & _ & Hnode).
  destruct (manifestItemOf_fields _ _ Hnode) as (Hid & Hhref & Hmt).
  subst k. done.
Qed.

Lemma manifest_items_are_complete_witness :
  id (Build_EpubManifestItem (lit "c1") (lit "ch1.html")
        (lit "application/xhtml+xml") []) = lit "c1" ∧
  lit "c1" ≠ [] ∧ lit "ch1.html" ≠ [] ∧ lit "application/xhtml+xml" ≠ [].
Proof.
  apply (manifest_items_are_complete Fixture.twoChaptersOpf (lit "c1")
           (Build_EpubManifestItem (lit "c1") (lit "ch1.html")
              (lit "application/xhtml+xml") [])).
  by vm_compute.
Defined.

(** ** The file name heuristic *)

Lemma toLowerCase_app a b : toLowerCase (a ++ b) = toLowerCase a ++ toLowerCase b.
Proof. apply List.map_app. Qed.

Lemma includes_lowered s pre w post word :
  s = pre ++ w ++ post → toLowerCase w = word →
  includes (toLowerCase s) word = true.
Proof.
  intros -> <-. apply includes_spec.
  exists (toLowerCase pre), (toLowerCase post). by rewrite !toLowerCase_app.
Qed.

(** Rule 2 looks at the first three positions only and does not mind the
    letter case: there an item is skipped when its href holds toc or
    contents, or its id holds toc, in any mix of upper and lower case
    letters; from the fourth position on no name is skipped, so an item
    without nav in its properties is never skipped. *)
Theorem name_heuristic_is_early_and_caseless i item :
  ((i < 3)%nat →
   ∀ pre w post,
     (href item = pre ++ w ++ post ∧
      (toLowerCase w = lit "toc" ∨ toLowerCase w = lit "contents")) ∨
     (id item = pre ++ w ++ post ∧ toLowerCase w = lit "toc") →
     skipByName i item = true) ∧
  ((3 ≤ i)%nat →
   skipByName i item = false ∧
   ∀ host loadedZip manifestItems opfDir entry,
     manifestItems !! idref entry = Some item →
     skipNav item = false →
     itemResult host loadedZip manifestItems opfDir i entry ≠ Skipped).
Proof.
  split.
  - intros Hi pre w post Hname. unfold skipByName.
    apply Nat.ltb_lt in Hi. rewrite Hi. cbn [andb].
    destruct Hname as [[Hhref [Hw | Hw]] | [Hid Hw]].
    + by rewrite (includes_lowered _ _ _ _ _ Hhref Hw).
    + rewrite (includes_lowered _ _ _ _ _ Hhref Hw). by rewrite orb_true_r.
    + rewrite (includes_lowered _ _ _ _ _ Hid Hw). by rewrite !orb_true_r.
  - intros Hi.
    assert (skipByName i item = false) as Hname.
    { unfold skipByName. apply Nat.ltb_ge in Hi. by rewrite Hi. }
    split; [exact Hname |].
    intros host loadedZip manifestItems opfDir entry Hitem Hnav.
    unfold itemResult. rewrite Hitem, Hnav, Hname. cbn [orb].
    destruct (decodeURIComponent _); [| done].
    destruct (loadedZip !! _); [| done]. by destruct (Nat.ltb _ _).
Qed.

Lemma name_heuristic_is_early_and_caseless_witness :
  skipByName 2 Fixture.tocItem = true ∧ skipByName 3 Fixture.tocItem = false.
Proof.
  split.
  - destruct (name_heuristic_is_early_and_caseless 2 Fixture.tocItem) as [Hearly _].
    apply (Hearly ltac:(lia) (lit "text/") (lit "TOC") (lit ".xhtml")).
    left. split; [reflexivity | by left].
  - destruct (name_heuristic_is_early_and_caseless 3 Fixture.tocItem) as [_ Hlate].
    apply Hlate. lia.
Defined.

(** ** The content of the book *)

Lemma aggregate_joinWith text texts :
  aggregate (text :: texts) = joinWith separator (text :: texts) ++ separator.
Proof.
  revert text. induction texts as [|t ts IH]; intros text.
  - rewrite aggregate_cons. change (aggregate []) with (@nil N).
    by rewrite app_nil_r.
  - rewrite aggregate_cons, IH. cbn [joinWith]. by rewrite <- !app_assoc.
Qed.

(** The content of a book with chapters is the chapter texts, in reading
    order, joined by the separator and closed by a blank line and the dash
    line; items that were skipped, missing or blank leave no trace in it.
    Its size is the length of the content plus 2, and a book without
    chapters has empty content and size 0. *)
Theorem content_joins_chapters host file book :
  (convertEpubToText host file).2 = inr book →
  ∃ results,
    spineResults host file = Some results ∧
    match chapters results with
    | [] => content book = [] ∧ size book = 0%Z
    | texts =>
        content book = joinWith separator texts ++ [LF; LF] ++ dashes ∧
        size book = (Z.of_nat (length (content book)) + 2)%Z
    end.
Proof.
  intros (zip & fullPath & opfContent & fullText & Hzip & Hloc & Hopf & Hrun & ->)%convert_inr_inv.
  apply processSpine_returns in Hrun as [_ ->]. cbn [app].
  eexists. split.
  { unfold spineResults. rewrite Hzip, Hloc, Hopf. reflexivity. }
  destruct (chapters _) as [|text texts] eqn:Hch; [by split |].
  assert (text ∈ chapters (itemResults host zip
            (manifestItems (readOpf (parseXml host opfContent)))
            (opfDirOf fullPath) 0 (spine (readOpf (parseXml host opfContent)))))
    as Hin by (rewrite Hch; by left).
  apply chapters_result in Hin as (k & entry & Hin).
  apply itemResult_chapter in Hin as (c & r & -> & Hc).
  cbn [content size package].
  rewrite aggregate_joinWith.
  assert (∃ s, joinWith separator ((c :: r) :: texts) = c :: s) as [s Hs].
  { destruct texts; cbn [joinWith]; eauto. }
  rewrite Hs, trim_closed_aggregate by done.
  split; [reflexivity |].
  unfold separator. rewrite !length_app. cbn [length]. lia.
Qed.

Lemma content_joins_chapters_witness :
  ∃ results,
    spineResults Fixture.twoChaptersHost Fixture.twoChapters = Some results ∧
    match chapters results with
    | [] => content Fixture.twoChaptersBook = [] ∧ size Fixture.twoChaptersBook = 0%Z
    | texts =>
        content Fixture.twoChaptersBook = joinWith separator texts ++ [LF; LF] ++ dashes ∧
        size Fixture.twoChaptersBook
        = (Z.of_nat (length (content Fixture.twoChaptersBook)) + 2)%Z
    end.
Proof.
  apply (content_joins_chapters Fixture.twoChaptersHost Fixture.twoChapters).
  by vm_compute.
Defined.

(** ** Progress *)

Lemma length_itemResults host zip m dir i entries :
  length (itemResults host zip m dir i entries) = length entries.
Proof.
  revert i. induction entries as [|e es IH]; intros i; [reflexivity |].
  cbn. by rewrite IH.
Qed.

Lemma checkpoints_range host n p :
  roundScaledSound host → p ∈ checkpoints host n → (10 ≤ p ≤ 100)%Z.
Proof.
  intros Hsound. unfold checkpoints.
  rewrite !elem_of_cons, elem_of_app, list_elem_of_singleton.
  intros [-> | [-> | [Hin | ->]]]; try lia.
  apply list_elem_of_fmap in Hin as (i & -> & Hi).
  apply list_elem_of_In, in_seq in Hi.
  destruct (Hsound n i i) as (? & _ & ?); lia.
Qed.

Lemma convert_checkpoints host file book results :
  (convertEpubToText host file).2 = inr book →
  spineResults host file = Some results →
  percentages (convertEpubToText host file).1 = checkpoints host (length results).
Proof.
  intros Hbook (zip & fullPath & opfContent & Hzip & Hloc & Hopf & ->)%spineResults_inv.
  rewrite (convert_run _ _ _ _ _ Hzip Hloc Hopf) in *.
  rewrite length_itemResults.
  match goal with |- context [processSpine ?h ?z ?m ?d ?t ?i ?l ?a] =>
    destruct (processSpine_percentages h z m d t i l a) as (k & Hk & Hperc & Hall);
    set (run := processSpine h z m d t i l a) in *
  end.
  destruct (run.2) as [e | fullText]; [discriminate |].
  rewrite (Hall _ eq_refl) in Hperc. cbn [fst].
  by rewrite !percentages_progress, percentages_app, Hperc.
Qed.

(** Every percentage handed to the callback lies between 10 and 100; and a
    conversion that returns a book has called it once before unpacking,
    once before reading the OPF file, once for every spine entry, skipped
    ones included, and once at the end. *)
Theorem progress_range_and_count host file :
  (roundScaledSound host →
   ∀ p, p ∈ percentages (convertEpubToText host file).1 → (10 ≤ p ≤ 100)%Z) ∧
  (∀ book results,
     (convertEpubToText host file).2 = inr book →
     spineResults host file = Some results →
     percentages (convertEpubToText host file).1 = checkpoints host (length results) ∧
     length (percentages (convertEpubToText host file).1) = (length results + 3)%nat).
Proof.
  split.
  - intros Hsound p Hp.
    destruct (convert_percentages host file) as (n & [rest Hpre] & _).
    apply (checkpoints_range host n p Hsound). rewrite Hpre, elem_of_app. by left.
  - intros book results Hbook Hres.
    rewrite (convert_checkpoints _ _ _ _ Hbook Hres). split; [reflexivity |].
    unfold checkpoints. cbn [length]. rewrite length_app, length_map, length_seq.
    cbn. lia.
Qed.

Lemma progress_range_and_count_witness :
  percentages (convertEpubToText Fixture.twoChaptersHost Fixture.twoChapters).1
  = checkpoints Fixture.twoChaptersHost 2 ∧
  length (percentages (convertEpubToText Fixture.twoChaptersHost Fixture.twoChapters).1)
  = 5%nat.
Proof.
  destruct (progress_range_and_count Fixture.twoChaptersHost Fixture.twoChapters)
    as [_ Hcount].
  apply (Hcount Fixture.twoChaptersBook [Chapter (lit "A"); Chapter (lit "B")]);
    by vm_compute.
Defined.

(** ** The console *)

Section Console.

Variable host : Host.
Variable loadedZip : gmap (list N) (list N).
Variable manifestItems : gmap (list N) EpubManifestItem.
Variable opfDir : list N.
Variable totalItems : nat.

Lemma processItem_console i entry fullText :
  let evs := (processItem host loadedZip manifestItems opfDir totalItems
                i entry fullText).1 in
  let r := itemResult host loadedZip manifestItems opfDir i entry in
  length (List.filter isSkipLog evs) = (if isSkipped r then 1 else 0)%nat ∧
  length (List.filter isWarning evs) = (if isMissing r then 1 else 0)%nat.
Proof.
  unfold processItem, itemResult.
  destruct (manifestItems !! idref entry) as [item |]; [| by cbn].
  cbn. destruct (skipNav item); [by cbn |].
  destruct (skipByName i item); [by cbn |]. cbn.
  destruct (decodeURIComponent (opfDir ++ href item)) as [path |]; [| by cbn].
  cbn. destruct (loadedZip !! path) as [html |]; [| by cbn].
  by destruct (Nat.ltb _ _).
Qed.

Lemma processSpine_console i entries fullText t :
  let run := processSpine host loadedZip manifestItems opfDir totalItems
               i entries fullText in
  let results := itemResults host loadedZip manifestItems opfDir i entries in
  run.2 = inr t →
  length (List.filter isSkipLog run.1) = length (List.filter isSkipped results) ∧
  length (List.filter isWarning run.1) = length (List.filter isMissing results).
Proof.
  revert i fullText. induction entries as [|entry rest IH]; intros i fullText.
  - by cbn.
  - cbn zeta. rewrite processSpine_cons.
    destruct (processItem_console i entry fullText) as (Hskip & Hwarn).
    cbn zeta in Hskip, Hwarn.
    destruct ((processItem _ _ _ _ _ i entry fullText).2) as [e | fullText'];
      [discriminate |].
    cbn [fst snd]. intros Ht. destruct (IH _ _ Ht) as [IHskip IHwarn].
    cbn zeta in IHskip, IHwarn. cbn [itemResults List.filter].
    rewrite !List.filter_app, !length_app, Hskip, Hwarn, IHskip, IHwarn.
    by destruct (itemResult _ _ _ _ i entry).
Qed.

End Console.

Lemma events_split (l : list Event) :
  length l = (length (percentages l) + length (List.filter isSkipLog l)
              + length (List.filter isWarning l))%nat.
Proof.
  induction l as [|ev l IH]; [reflexivity |].
  destruct ev; cbn [List.filter isSkipLog isWarning length];
    [rewrite percentages_progress
    | change (percentages (?e :: l)) with (percentages l) ..];
    cbn [length]; lia.
Qed.

(** A conversion that returns a book has written one line to the console
    for every item it skipped as table of contents and one warning for
    every item whose file is not in the archive, and nothing else. *)
Theorem console_lines_match_results host file book results :
  (convertEpubToText host file).2 = inr book →
  spineResults host file = Some results →
  length (List.filter isSkipLog (convertEpubToText host file).1)
  = length (List.filter isSkipped results) ∧
  length (List.filter isWarning (convertEpubToText host file).1)
  = length (List.filter isMissing results) ∧
  length (convertEpubToText host file).1
  = (length results + 3 + length (List.filter isSkipped results)
     + length (List.filter isMissing results))%nat.
Proof.
  intros Hbook Hres.
  assert (length (percentages (convertEpubToText host file).1)
          = (length results + 3)%nat) as Hprogress.
  { rewrite (convert_checkpoints _ _ _ _ Hbook Hres). unfold checkpoints.
    cbn [length]. rewrite length_app, length_map, length_seq. cbn. lia. }
  destruct (spineResults_inv _ _ _ Hres)
    as (zip & fullPath & opfContent & Hzip & Hloc & Hopf & ->).
  rewrite (convert_run _ _ _ _ _ Hzip Hloc Hopf) in *.
  destruct (processSpine _ _ _ _ _ _ _ _).2 as [e | fullText] eqn:Hrun;
    [discriminate |].
  destruct (processSpine_console _ _ _ _ _ _ _ _ _ Hrun) as [Hskip Hwarn].
  cbn zeta in Hskip, Hwarn. cbn [fst] in *.
  set (evs := (processSpine _ _ _ _ _ _ _ _).1) in *.
  pose proof events_split as Hsplit.
  cbn [List.filter isSkipLog isWarning].
  rewrite !List.filter_app, !length_app. cbn [List.filter isSkipLog isWarning length].
  rewrite Hskip, Hwarn. repeat split; try lia.
  rewrite !percentages_progress, percentages_app in Hprogress.
  cbn [length] in Hprogress. rewrite length_app in Hprogress.
  change (length (percentages [OnProgress 100 Finalizing])) with 1%nat in Hprogress.
  specialize (Hsplit evs). rewrite length_app. cbn [length]. lia.
Qed.

Lemma console_lines_match_results_witness :
  length (List.filter isSkipLog
            (convertEpubToText Fixture.navOnlyHost Fixture.navOnly).1) = 1%nat ∧
  length (List.filter isWarning
            (convertEpubToText Fixture.navOnlyHost Fixture.navOnly).1) = 0%nat ∧
  length (convertEpubToText Fixture.navOnlyHost Fixture.navOnly).1 = 5%nat.
Proof.
  apply (console_lines_match_results Fixture.navOnlyHost Fixture.navOnly
           (package Fixture.navOnly (readOpf Fixture.navOnlyOpf) []) [Skipped]);
    by vm_compute.
Defined.

End PipelineFacts.

(** * Resolving the path of an item *)

Module PathFacts.

Import JS JSFacts Epub EpubFacts.

#[local] Arguments decodeURIComponent : simpl never.
#[local] Arguments Nat.ltb : simpl never.

Lemma uriItems_plain pre s :
  37 ∉ pre →
  uriItems (pre ++ s) = (List.map Plain pre ++.) <$> uriItems s.
Proof.
  induction pre as [|c r IH]; intros Hno.
  - cbn. by destruct (uriItems s).
  - assert ((c =? 37) = false) as Hc.
    { apply N.eqb_neq. intros ->. apply Hno. by left. }
    cbn [app uriItems]. rewrite Hc, IH by (intros Hin; apply Hno; by right).
    by destruct (uriItems s).
Qed.

Lemma utf8Items_plain pre items :
  utf8Items (List.map Plain pre ++ items) = (pre ++.) <$> utf8Items items.
Proof.
  induction pre as [|c r IH]; cbn [List.map app utf8Items].
  - by destruct (utf8Items items).
  - rewrite IH. by destruct (utf8Items items).
Qed.

(** The text before the first percent sign is kept as it is. *)
Lemma decode_plain_prefix pre s :
  37 ∉ pre →
  decodeURIComponent (pre ++ s) = (pre ++.) <$> decodeURIComponent s.
Proof.
  intros Hno. unfold decodeURIComponent. rewrite (uriItems_plain _ _ Hno).
  destruct (uriItems s) as [items |]; [| reflexivity].
  cbn. apply utf8Items_plain.
Qed.

Lemma decode_plain s : 37 ∉ s → decodeURIComponent s = Some s.
Proof.
  intros Hno. rewrite <- (app_nil_r s) at 1.
  rewrite (decode_plain_prefix _ _ Hno).
  change (decodeURIComponent []) with (Some (@nil N)). cbn. by rewrite app_nil_r.
Qed.

(** An escape of a character below 128 yields that character. *)
Lemma decode_ascii_escape h1 h2 a b s :
  hexValue h1 = Some a → hexValue h2 = Some b → 16 * a + b < 128 →
  decodeURIComponent (37 :: h1 :: h2 :: s)
  = ((16 * a + b) ::.) <$> decodeURIComponent s.
Proof.
  intros Ha Hb Hlt. unfold decodeURIComponent. cbn [uriItems].
  change (37 =? 37) with true. cbn match. rewrite Ha, Hb.
  destruct (uriItems s) as [items |]; [| reflexivity].
  cbn [utf8Items]. apply N.ltb_lt in Hlt. rewrite Hlt.
  by destruct (utf8Items items).
Qed.

Lemma uriItems_bad_escape_here rest :
  badEscape rest → uriItems (37 :: rest) = None.
Proof.
  intros Hbad. cbn [uriItems]. change (37 =? 37) with true. cbn match.
  destruct rest as [|h1 [|h2 r]]; [reflexivity | reflexivity |].
  destruct Hbad as [-> | Hb]; [reflexivity |].
  rewrite Hb. by destruct (hexValue h1).
Qed.

(** A percent sign cannot be a digit of an escape before it, so the first
    pass reaches it, unless it has failed already. *)
Lemma uriItems_bad_escape n pre rest :
  (length pre ≤ n)%nat → badEscape rest → uriItems (pre ++ 37 :: rest) = None.
Proof.
  revert pre. induction n as [|n IH]; intros pre Hlen Hbad.
  - destruct pre; [| cbn in Hlen; lia]. by apply uriItems_bad_escape_here.
  - destruct pre as [|c r]; [by apply uriItems_bad_escape_here |].
    cbn [length] in Hlen. cbn [app uriItems].
    destruct (c =? 37) eqn:Hc.
    + assert (hexValue 37 = None) as Hpercent by reflexivity.
      destruct r as [|h1 [|h2 r']]; cbn [app].
      * rewrite Hpercent. by destruct rest.
      * rewrite Hpercent. by destruct (hexValue h1).
      * cbn [length] in Hlen. rewrite (IH r') by (trivial; lia).
        by destruct (hexValue h1), (hexValue h2).
    + by rewrite (IH r) by (trivial; lia).
Qed.

Lemma decode_bad_escape pre rest :
  badEscape rest → decodeURIComponent (pre ++ 37 :: rest) = None.
Proof.
  intros Hbad. unfold decodeURIComponent.
  by rewrite (uriItems_bad_escape (length pre) pre rest).
Qed.

Section Lookup.

Variable host : Host.
Variable loadedZip : gmap (list N) (list N).
Variable manifestItems : gmap (list N) EpubManifestItem.
Variable opfDir : list N.

(** An item that the classifier lets through is looked up under its decoded
    path. *)
Lemma itemResult_at_path i entry item path :
  manifestItems !! idref entry = Some item →
  skipNav item = false → skipByName i item = false →
  decodeURIComponent (opfDir ++ href item) = Some path →
  itemResult host loadedZip manifestItems opfDir i entry =
  match loadedZip !! path with
  | None => Missing
  | Some htmlContent =>
      if (0 <? length (trim (extractTextFromHtml host htmlContent)))%nat
      then Chapter (extractTextFromHtml host htmlContent)
      else Blank
  end.
Proof.
  intros Hitem Hnav Hname Hpath. unfold itemResult.
  by rewrite Hitem, Hnav, Hname, Hpath.
Qed.

(** An item that is not skipped and whose path, the directory of the OPF
    file followed by its href, holds no percent sign, is read from the
    archive entry with exactly that path: it counts as missing exactly when
    the archive has no such entry, and the decoding cannot fail. *)
Theorem plain_path_is_looked_up_as_written i entry item :
  manifestItems !! idref entry = Some item →
  skipNav item = false → skipByName i item = false →
  37 ∉ opfDir ++ href item →
  (itemResult host loadedZip manifestItems opfDir i entry = Missing
   ↔ loadedZip !! (opfDir ++ href item) = None) ∧
  itemResult host loadedZip manifestItems opfDir i entry ≠ Undecodable ∧
  (∀ htmlContent,
     loadedZip !! (opfDir ++ href item) = Some htmlContent →
     extractTextFromHtml host htmlContent ≠ [] →
     itemResult host loadedZip manifestItems opfDir i entry
     = Chapter (extractTextFromHtml host htmlContent)).
Proof.
  intros Hitem Hnav Hname Hplain.
  rewrite (itemResult_at_path i entry item _ Hitem Hnav Hname (decode_plain _ Hplain)).
  destruct (loadedZip !! (opfDir ++ href item)) as [html |]; repeat split; try done.
  - by destruct (Nat.ltb _ _).
  - by destruct (Nat.ltb _ _).
  - intros ? [= <-] Hne.
    rewrite NormalizeFacts.extract_trim_fixed.
    destruct (extractTextFromHtml host html); [done |]. reflexivity.
Qed.

(** An escape of an ASCII character in the path is decoded before the
    lookup: with one such escape, the entry that is read is the one whose
    path has the character in place of the escape. *)
Theorem escaped_character_is_decoded i entry item pre h1 h2 a b post :
  manifestItems !! idref entry = Some item →
  skipNav item = false → skipByName i item = false →
  opfDir ++ href item = pre ++ 37 :: h1 :: h2 :: post →
  37 ∉ pre → 37 ∉ post →
  hexValue h1 = Some a → hexValue h2 = Some b → 16 * a + b < 128 →
  (itemResult host loadedZip manifestItems opfDir i entry = Missing
   ↔ loadedZip !! (pre ++ (16 * a + b) :: post) = None) ∧
  (∀ htmlContent,
     loadedZip !! (pre ++ (16 * a + b) :: post) = Some htmlContent →
     extractTextFromHtml host htmlContent ≠ [] →
     itemResult host loadedZip manifestItems opfDir i entry
     = Chapter (extractTextFromHtml host htmlContent)).
Proof.
  intros Hitem Hnav Hname Hpath Hpre Hpost Ha Hb Hlt.
  assert (decodeURIComponent (opfDir ++ href item)
          = Some (pre ++ (16 * a + b) :: post)) as Hdec.
  { rewrite Hpath, (decode_plain_prefix _ _ Hpre),
      (decode_ascii_escape _ _ _ _ _ Ha Hb Hlt), (decode_plain _ Hpost).
    reflexivity. }
  rewrite (itemResult_at_path i entry item _ Hitem Hnav Hname Hdec).
  destruct (loadedZip !! _) as [html |]; repeat split; try done.
  - by destruct (Nat.ltb _ _).
  - intros ? [= <-] Hne.
    rewrite NormalizeFacts.extract_trim_fixed.
    destruct (extractTextFromHtml host html); [done |]. reflexivity.
Qed.

(** A percent sign in the path that is not followed by two hexadecimal
    digits, wherever it stands and whatever stands before it, makes the
    decoding throw for an item that is not skipped, whether the archive
    holds the file or not. *)
Theorem bad_escape_throws i entry item pre rest :
  manifestItems !! idref entry = Some item →
  skipNav item = false → skipByName i item = false →
  opfDir ++ href item = pre ++ 37 :: rest →
  badEscape rest →
  itemResult host loadedZip manifestItems opfDir i entry = Undecodable.
Proof.
  intros Hitem Hnav Hname Hpath Hbad. unfold itemResult.
  by rewrite Hitem, Hnav, Hname, Hpath, (decode_bad_escape _ _ Hbad).
Qed.

End Lookup.

Lemma not_percent_in (s : list N) :
  forallb (fun c => negb (c =? 37)) s = true → 37 ∉ s.
Proof.
  intros Hall Hin. rewrite forallb_forall in Hall.
  apply list_elem_of_In, Hall in Hin. by rewrite N.eqb_refl in Hin.
Qed.

Lemma plain_path_is_looked_up_as_written_witness :
  itemResult Fixture.twoChaptersHost (Fixture.archiveOf Fixture.twoChapters)
    (manifestItems (readOpf Fixture.twoChaptersOpf)) (lit "OEBPS/") 0 Fixture.firstEntry
  = Chapter (lit "A").
Proof.
  pose proof (plain_path_is_looked_up_as_written Fixture.twoChaptersHost
                (Fixture.archiveOf Fixture.twoChapters)
                (manifestItems (readOpf Fixture.twoChaptersOpf)) (lit "OEBPS/")
                0 Fixture.firstEntry (Fixture.chapterItem "ch1.html")
                ltac:(by vm_compute) ltac:(by vm_compute) ltac:(by vm_compute)
                ltac:(by apply not_percent_in))
    as (_ & _ & Hfound).
  apply (Hfound (lit "A")); by vm_compute.
Defined.

Lemma escaped_character_is_decoded_witness :
  itemResult Fixture.spaceHost (Fixture.archiveOf Fixture.space)
    (manifestItems (readOpf Fixture.spaceOpf)) (lit "OEBPS/") 0 Fixture.firstEntry
  = Chapter (lit "A").
Proof.
  pose proof (escaped_character_is_decoded Fixture.spaceHost
                (Fixture.archiveOf Fixture.space)
                (manifestItems (readOpf Fixture.spaceOpf)) (lit "OEBPS/")
                0 Fixture.firstEntry (Fixture.chapterItem "my%20book.html")
                (lit "OEBPS/my") 50 48 2 0 (lit "book.html")
                ltac:(by vm_compute) ltac:(by vm_compute) ltac:(by vm_compute)
                ltac:(by vm_compute)
                ltac:(by apply not_percent_in) ltac:(by apply not_percent_in)
                ltac:(by vm_compute) ltac:(by vm_compute) ltac:(by vm_compute))
    as (_ & Hfound).
  apply (Hfound (lit "A")); by vm_compute.
Defined.

Lemma bad_escape_throws_witness :
  itemResult Fixture.escapesHost (Fixture.archiveOf Fixture.escapes)
    (manifestItems (readOpf Fixture.escapesOpf)) (lit "OEBPS/") 0 Fixture.firstEntry
  = Undecodable.
Proof.
  apply (bad_escape_throws Fixture.escapesHost (Fixture.archiveOf Fixture.escapes)
           (manifestItems (readOpf Fixture.escapesOpf)) (lit "OEBPS/")
           0 Fixture.firstEntry (Fixture.chapterItem "a%20b%zz.html")
           (lit "OEBPS/a%20b") (lit "zz.html")
           ltac:(by vm_compute) ltac:(by vm_compute) ltac:(by vm_compute)
           ltac:(by vm_compute) ltac:(by left)).
Defined.

End PathFacts.

(** * The page *)

Module AppFacts.

Import JS JSFacts Epub EpubFacts App.

Lemma endsWith_spec s suffix :
  endsWith s suffix = true ↔ ∃ pre, s = pre ++ suffix.
Proof.
  unfold endsWith. rewrite andb_true_iff, Nat.leb_le, bool_decide_eq_true. split.
  - intros [_ Hdrop]. exists (take (length s - length suffix) s).
    rewrite <- (take_drop (length s - length suffix) s) at 1. by rewrite Hdrop.
  - intros [pre ->]. rewrite length_app. split; [lia |].
    replace (length pre + length suffix - length suffix)%nat with (length pre) by lia.
    by rewrite drop_app_length.
Qed.

Lemma replaceFirst_absent s pat rep :
  includes s pat = false → replaceFirst s pat rep = s.
Proof.
  induction s as [|c r IH]; cbn [includes replaceFirst].
  - intros H%orb_false_elim. destruct H as [-> _]. reflexivity.
  - intros H%orb_false_elim. destruct H as [-> Hr]. by rewrite IH.
Qed.

Lemma replaceFirst_here s pat rep :
  startsWith s pat = true → replaceFirst s pat rep = rep ++ drop (length pat) s.
Proof. destruct s; cbn [replaceFirst]; by intros ->. Qed.

(** The first occurrence is the one that goes. *)
Lemma replaceFirst_after_dotless pre post :
  46 ∉ pre →
  replaceFirst (pre ++ lit ".epub" ++ post) (lit ".epub") [] = pre ++ post.
Proof.
  induction pre as [|c r IH]; intros Hno.
  - cbn [app]. rewrite replaceFirst_here by (apply startsWith_spec; by eexists).
    by rewrite drop_app_length.
  - assert ((c =? 46) = false) as Hc.
    { apply N.eqb_neq. intros ->. apply Hno. by left. }
    assert (startsWith (c :: r ++ lit ".epub" ++ post) (lit ".epub") = false) as Hs.
    { destruct (startsWith _ _) eqn:Hs; [| reflexivity].
      apply startsWith_spec in Hs as [q Hq].
      change (lit ".epub" ++ q) with (46 :: lit "epub" ++ q) in Hq.
      injection Hq as Heq _. apply N.eqb_neq in Hc. congruence. }
    cbn [app replaceFirst]. rewrite Hs. f_equal.
    apply IH. intros Hin. apply Hno. by right.
Qed.

(** The occurrence after [pre] is the first one when none starts before
    it; that occurrence is the one that goes. *)
Lemma replaceFirst_first pat rep pre post :
  (∀ p q, pre ++ pat ++ post = p ++ pat ++ q → (length pre ≤ length p)%nat) →
  replaceFirst (pre ++ pat ++ post) pat rep = pre ++ rep ++ post.
Proof.
  induction pre as [|c r IH]; intros Hfirst.
  - cbn [app]. rewrite replaceFirst_here by (apply startsWith_spec; by eexists).
    by rewrite drop_app_length.
  - assert (startsWith (c :: r ++ pat ++ post) pat = false) as Hs.
    { destruct (startsWith _ _) eqn:Hs; [| reflexivity].
      apply startsWith_spec in Hs as [q Hq].
      specialize (Hfirst [] q Hq). cbn in Hfirst. lia. }
    cbn [app replaceFirst]. rewrite Hs. f_equal.
    apply IH. intros p q Hpq.
    specialize (Hfirst (c :: p) q). cbn [app length] in Hfirst.
    rewrite Hpq in Hfirst. specialize (Hfirst eq_refl). lia.
Qed.

(** A string that holds the pattern has a first occurrence of it. *)
Lemma first_occurrence_exists s pat :
  includes s pat = true →
  ∃ pre post, s = pre ++ pat ++ post ∧
              ∀ p q, s = p ++ pat ++ q → (length pre ≤ length p)%nat.
Proof.
  induction s as [|c r IH]; cbn [includes]; intros Hin.
  - rewrite orb_false_r in Hin. apply startsWith_spec in Hin as [post Hpost].
    exists [], post. split; [exact Hpost |]. intros; cbn; lia.
  - destruct (startsWith (c :: r) pat) eqn:Hs.
    + apply startsWith_spec in Hs as [post Hpost].
      exists [], post. split; [exact Hpost |]. intros; cbn; lia.
    + cbn [orb] in Hin. destruct (IH Hin) as (pre & post & -> & Hfirst).
      exists (c :: pre), post. split; [reflexivity |].
      intros [|c' p] q Hpq.
      * assert (startsWith (c :: pre ++ pat ++ post) pat = true) as Hs'
          by (apply startsWith_spec; by exists q).
        congruence.
      * cbn [app] in Hpq. injection Hpq as _ Hpq.
        specialize (Hfirst p q Hpq). cbn [length]. lia.
Qed.

(** A check of the positions before [n], one by one. *)
Lemma no_earlier_occurrence s pat n :
  forallb (fun k => negb (startsWith (drop k s) pat)) (seq 0 n) = true →
  ∀ p q, s = p ++ pat ++ q → (n ≤ length p)%nat.
Proof.
  intros Hall p q ->. destruct (decide (n ≤ length p)%nat) as [| Hlt]; [done |].
  rewrite forallb_forall in Hall. specialize (Hall (length p)).
  rewrite drop_app_length in Hall.
  assert (startsWith (pat ++ q) pat = true) as Hs
    by (apply startsWith_spec; by eexists).
  rewrite Hs in Hall. cbn [negb] in Hall.
  assert (false = true) by (apply Hall, in_seq; lia). discriminate.
Qed.

Section Page.

Variable host : Host.
Variable foreignMessage : Error → list N.

Lemma fold_updateProgress evs s :
  let s' := fold_left updateProgress evs s in
  appState s' = appState s ∧ error s' = error s ∧ book s' = book s ∧
  progress s' = default (progress s) (last (percentages evs)).
Proof.
  revert s. induction evs as [|ev evs IH]; intros s; [done |].
  cbn [fold_left]. destruct (IH (updateProgress s ev)) as (Ha & He & Hb & Hp).
  cbn zeta in *. rewrite Ha, He, Hb, Hp.
  destruct ev as [pct msg | | |]; cbn [updateProgress appState error book progress];
    try done.
  rewrite percentages_progress, last_cons. repeat split.
  by destruct (last (percentages evs)).
Qed.

(** The last percentage a conversion reports: 100 when it returns a book,
    and some checkpoint when it throws. *)
Lemma last_percentage host' file' :
  match (convertEpubToText host' file').2 with
  | inr _ => last (percentages (convertEpubToText host' file').1) = Some 100%Z
  | inl _ => ∃ p, last (percentages (convertEpubToText host' file').1) = Some p
  end.
Proof.
  destruct (convert_percentages host' file') as (n & _ & Hall).
  destruct (convertEpubToText host' file').2 as [err | result] eqn:Hrun.
  - destruct (percentages (convertEpubToText host' file').1) as [|p l] eqn:Hperc.
    + destruct (convert_stages host' file')
        as [[_ Hc] | [(? & ? & _ & _ & Hc) | [(? & ? & _ & _ & _ & Hc)
            | (z & fp & c & Hz & Hl & Hc)]]];
        try (rewrite Hc in Hperc; discriminate Hperc).
      rewrite (convert_run _ _ _ _ _ Hz Hl Hc) in Hperc.
      destruct (processSpine _ _ _ _ _ _ _ _).2; discriminate Hperc.
    + rewrite last_cons. destruct (last l); eauto.
  - rewrite (Hall _ eq_refl). unfold checkpoints. by rewrite !last_cons, last_snoc.
Qed.

(** What an accepted file leads to.  When the service returns a book the
    page shows it with the progress at 100; when the service throws, the
    page shows the message of the exception, or the fallback text when
    that message is empty, the progress stays at the last checkpoint that
    was reported and a book from an earlier conversion is kept. *)
Theorem accepted_upload_outcome u s :
  rejected u = false →
  let s' := handleFileUpload host foreignMessage (Some u) s in
  match (convertEpubToText host (file u)).2 with
  | inr result =>
      appState s' = COMPLETED ∧ book s' = Some result ∧ error s' = None ∧
      progress s' = 100%Z
  | inl err =>
      appState s' = ERROR ∧ book s' = book s ∧
      error s' = Some (if bool_decide (message foreignMessage err = [])
                       then fallbackMessage else message foreignMessage err) ∧
      Some (progress s') = last (percentages (convertEpubToText host (file u)).1)
  end.
Proof.
  intros Hacc. cbn zeta. unfold handleFileUpload. rewrite Hacc.
  set (started := Build_State PROCESSING 0 _ None _).
  destruct (fold_updateProgress (convertEpubToText host (file u)).1 started)
    as (_ & He & Hb & Hp). cbn zeta in He, Hb, Hp.
  pose proof (last_percentage host (file u)) as Hlast.
  destruct (convertEpubToText host (file u)).2 as [err | result].
  - cbn [appState book error progress]. rewrite Hb, Hp.
    destruct Hlast as [p ->]. repeat split.
    f_equal. unfold orElse, nonEmpty. case_bool_decide as Hm; [by rewrite Hm |].
    by destruct (message foreignMessage err).
  - cbn [appState book error progress]. by rewrite He, Hp, Hlast.
Qed.

(** Whatever files are picked and buttons clicked, starting from a fresh
    page: the page never stays in the processing state; where it shows the
    completed view there is a book and the progress is 100; where it shows
    the error view there is a message that is not empty; and a page that
    is idle has no book, no error and progress 0. *)
Theorem page_state_is_consistent actions :
  consistent (after host foreignMessage actions).
Proof.
  unfold after.
  assert (consistent initial) as Hinit by (by cbn).
  revert Hinit. generalize initial. induction actions as [|a actions IH]; intros s Hs.
  - exact Hs.
  - cbn [fold_left]. apply IH. destruct a as [[u |] | |]; cbn [step]; try exact Hs.
    + destruct (rejected u) eqn:Hrej.
      * unfold handleFileUpload. rewrite Hrej. unfold consistent. cbn.
        by exists invalidFileMessage.
      * unfold handleFileUpload. rewrite Hrej.
        set (started := Build_State PROCESSING 0 _ None _).
        destruct (fold_updateProgress (convertEpubToText host (file u)).1 started)
          as (_ & He & _ & Hp). cbn zeta in He, Hp.
        pose proof (last_percentage host (file u)) as Hlast.
        unfold consistent.
        destruct (convertEpubToText host (file u)).2 as [err | result];
          cbn [appState book error progress].
        -- eexists. split; [reflexivity |].
           apply PipelineFacts.orElse_nonempty. discriminate.
        -- rewrite He, Hp, Hlast. eauto.
    + by cbn.
Qed.

(** After a conversion that returned a book, the download carries the
    content of the book and is named after the file.  The first .epub of
    the file name, wherever it stands and whatever stands before it, is
    deleted and .txt is appended; a name that holds no .epub is kept whole
    before the .txt; and every name is one of the two.  In particular a
    file named base.epub, where base holds no dot, is downloaded as
    base.txt. *)
Theorem download_after_upload u s result :
  rejected u = false →
  (convertEpubToText host (file u)).2 = inr result →
  let download :=
    handleDownload (handleFileUpload host foreignMessage (Some u) s) in
  (∀ pre rest,
     name (file u) = pre ++ lit ".epub" ++ rest →
     (∀ p q, name (file u) = p ++ lit ".epub" ++ q →
             (length pre ≤ length p)%nat) →
     download = Some (pre ++ rest ++ lit ".txt", content result)) ∧
  ((∀ p q, name (file u) ≠ p ++ lit ".epub" ++ q) →
   download = Some (name (file u) ++ lit ".txt", content result)) ∧
  ((∃ pre rest,
      name (file u) = pre ++ lit ".epub" ++ rest ∧
      ∀ p q, name (file u) = p ++ lit ".epub" ++ q →
             (length pre ≤ length p)%nat) ∨
   (∀ p q, name (file u) ≠ p ++ lit ".epub" ++ q)) ∧
  (∀ base rest,
     name (file u) = base ++ lit ".epub" ++ rest →
     46 ∉ base →
     download = Some (base ++ rest ++ lit ".txt", content result)).
Proof.
  intros Hacc Hrun download.
  assert (download
          = Some (replaceFirst (name (file u)) (lit ".epub") [] ++ lit ".txt",
                  content result)) as Hdownload.
  { unfold download, handleDownload, handleFileUpload.
    rewrite Hacc, Hrun. cbn [book].
    by rewrite (PipelineFacts.convert_filename _ _ _ Hrun). }
  rewrite Hdownload. repeat split.
  - intros pre rest Hname Hfirst. rewrite Hname in Hfirst |- *.
    by rewrite (replaceFirst_first _ _ _ _ Hfirst), <- app_assoc.
  - intros Hnone. rewrite replaceFirst_absent; [reflexivity |].
    destruct (includes _ _) eqn:Hin; [| reflexivity].
    apply includes_spec in Hin as (p & q & Hpq). by destruct (Hnone p q).
  - destruct (includes (name (file u)) (lit ".epub")) eqn:Hin.
    + left. by apply first_occurrence_exists.
    + right. intros p q Hpq.
      assert (includes (name (file u)) (lit ".epub") = true) as Hin'
        by (apply includes_spec; by exists p, q).
      congruence.
  - intros base rest Hname Hbase.
    by rewrite Hname, replaceFirst_after_dotless, <- app_assoc.
Qed.

End Page.

(** A file is handed to the service exactly when its type is
    application/epub+zip or its name ends in .epub.  Any other file puts
    the page in the error state with the fixed message and leaves the
    progress and a book that is there untouched. *)
Theorem upload_gate host foreignMessage u s :
  (rejected u = false ↔
   type u = lit "application/epub+zip" ∨ ∃ base, name (file u) = base ++ lit ".epub") ∧
  (rejected u = true →
   handleFileUpload host foreignMessage (Some u) s =
   {| appState := ERROR; progress := progress s;
      progressMessage := progressMessage s;
      error := Some invalidFileMessage; book := book s |}).
Proof.
  split.
  - unfold rejected. rewrite andb_false_iff, !negb_false_iff.
    by rewrite bool_decide_eq_true, endsWith_spec.
  - intros Hrej. unfold handleFileUpload. by rewrite Hrej.
Qed.

Lemma accepted_upload_outcome_witness :
  appState (handleFileUpload Fixture.twoChaptersHost Fixture.noMessage
              (Some Fixture.twoChaptersUpload) initial) = COMPLETED ∧
  book (handleFileUpload Fixture.twoChaptersHost Fixture.noMessage
          (Some Fixture.twoChaptersUpload) initial) = Some Fixture.twoChaptersBook ∧
  error (handleFileUpload Fixture.twoChaptersHost Fixture.noMessage
           (Some Fixture.twoChaptersUpload) initial) = None ∧
  progress (handleFileUpload Fixture.twoChaptersHost Fixture.noMessage
              (Some Fixture.twoChaptersUpload) initial) = 100%Z.
Proof.
  exact (accepted_upload_outcome Fixture.twoChaptersHost Fixture.noMessage
           Fixture.twoChaptersUpload initial eq_refl).
Defined.

Lemma download_after_upload_witness :
  handleDownload (handleFileUpload Fixture.twoChaptersHost Fixture.noMessage
                    (Some Fixture.dottedUpload) initial)
  = Some (lit "my.book" ++ [] ++ lit ".txt", content Fixture.dottedBook).
Proof.
  destruct (download_after_upload Fixture.twoChaptersHost Fixture.noMessage
              Fixture.dottedUpload initial Fixture.dottedBook
              ltac:(by vm_compute) ltac:(by vm_compute))
    as (Hfirst & _).
  apply (Hfirst (lit "my.book") []); [by vm_compute |].
  apply (no_earlier_occurrence _ _ 7). by vm_compute.
Defined.

Lemma upload_gate_witness :
  handleFileUpload Fixture.twoChaptersHost Fixture.noMessage
    (Some Fixture.notesUpload) initial =
  {| appState := ERROR; progress := 0%Z; progressMessage := None;
     error := Some invalidFileMessage; book := None |}.
Proof.
  apply (upload_gate Fixture.twoChaptersHost Fixture.noMessage
           Fixture.notesUpload initial). by vm_compute.
Defined.

End AppFacts.

Lemma throwing_turn_rejects_conversion_witness :
  ∃ e, (convertEpubToText Fixture.percentHost Fixture.percent).2 = inl e ∧
       (e = URIError ∨ e = TypeError).
Proof.
  apply (throwing_turn_rejects_conversion Fixture.percentHost Fixture.percent
           [Undecodable; Chapter (lit "B")]); by vm_compute.
Defined.
